(** * Settings persistence and component gallery: a shallow embedding

    The development follows the three source files of the application:

    - [app/routes/db.service.ts]: the [DatabaseService] accessor, a thin
      wrapper around a D1 database binding;
    - [app/routes/app.d1example.tsx]: the settings route, with its
      [loader], its [action] and the view [Index];
    - [app/routes/app.web-components.tsx]: the component gallery view,
      with its sortable status table and its modal form.

    Asynchronous functions are modelled in an exception-and-state monad
    over an explicit [World]: a rejected promise is a thrown value, and
    [await] is the monadic bind.  JavaScript strings are Rocq strings, one
    character per code unit. *)

From Stdlib Require Import String Ascii ZArith List Bool Lia.
From Stdlib Require Import Permutation Sorted DecimalString.
From stdpp Require Import base option list gmap.

Import ListNotations.
Local Open Scope string_scope.
Local Open Scope Z_scope.

(** ** Values thrown, values stored *)

(** What a [throw] (or a rejected promise) carries: an [Error] object with
    its message, or any other value, kept as the text [String(v)] gives. *)
Inductive Thrown : Type :=
  | JsError (message : string)
  | JsOther (text : string).

(** [error instanceof Error ? error.message : String(error)]. *)
Definition error_text (error : Thrown) : string :=
  match error with
  | JsError message => message
  | JsOther text => text
  end.

Inductive Outcome (A : Type) : Type :=
  | Return (a : A)
  | Throw (error : Thrown).
Arguments Return {A} a.
Arguments Throw {A} error.

(** A value bound to a statement or read from a column. *)
Inductive SqlValue : Type :=
  | SqlText (s : string)
  | SqlInt (z : Z)
  | SqlNull.

(** A row object as the driver hands it over: column name to value. *)
Definition RowObject : Type := list (string * SqlValue).

(** [row.column]; [None] is [undefined]. *)
Fixpoint row_get (row : RowObject) (column : string) : option SqlValue :=
  match row with
  | [] => None
  | (c, v) :: rest => if String.eqb c column then Some v else row_get rest column
  end.

(** [D1Result], as returned by [run()] and [all()]. *)
Record D1Result : Type := {
  d1_success : bool;
  results : option (list RowObject)
}.

(** [D1ExecResult], as returned by [exec()]. *)
Record D1ExecResult : Type := {
  exec_count : Z
}.

(** What [executeQuery] resolves to: the result of [run()] or of [exec()]. *)
Inductive ExecuteResult : Type :=
  | RanStatement (r : D1Result)
  | ExecutedScript (r : D1ExecResult).

(** ** The world of a worker *)

Inductive LogEntry : Type :=
  | LogWarn (text : string)
  | LogError (label : string) (error : Thrown).

(** One call into the driver. *)
Inductive DriverCall : Type :=
  | CallExec (query : string)
  | CallPrepare (query : string)
  | CallBind (params : list SqlValue)
  | CallRun
  | CallAll
  | CallFirst.

(** A call together with what it threw, if it threw. *)
Record DriverEvent : Type := {
  ev_call : DriverCall;
  ev_thrown : option Thrown
}.

Module DbService.

Section WithDriver.

(** The state behind the binding and the driver's prepared statements. *)
Context {DS Stmt : Type}.

(** The part of the [D1Database] interface the service calls.  Every
    method may change the state behind the binding and may throw. *)
Record D1Database : Type := {
  d1_exec : string -> DS -> Outcome D1ExecResult * DS;
  d1_prepare : string -> DS -> Outcome Stmt * DS;
  d1_bind : Stmt -> list SqlValue -> DS -> Outcome Stmt * DS;
  d1_run : Stmt -> DS -> Outcome D1Result * DS;
  d1_all : Stmt -> DS -> Outcome D1Result * DS;
  d1_first : Stmt -> DS -> Outcome (option RowObject) * DS
}.

(** [console] is the log; [db] is the private field of the singleton
    [dbService], shared by all requests; [store] is the state behind the
    binding; [driver_calls] records every call made into a driver. *)
Record World : Type := {
  console : list LogEntry;
  db : option D1Database;
  store : DS;
  driver_calls : list DriverEvent
}.

Definition M (A : Type) : Type := World -> Outcome A * World.

Definition ret {A} (a : A) : M A := fun w => (Return a, w).

Definition throw {A} (error : Thrown) : M A := fun w => (Throw error, w).

Definition bind {A B} (m : M A) (k : A -> M B) : M B :=
  fun w =>
    match m w with
    | (Return a, w') => k a w'
    | (Throw error, w') => (Throw error, w')
    end.

(** [try { body } catch (error) { handler }]. *)
Definition try_catch {A} (body : M A) (handler : Thrown -> M A) : M A :=
  fun w =>
    match body w with
    | (Return a, w') => (Return a, w')
    | (Throw error, w') => handler error w'
    end.

Definition log (entry : LogEntry) : M unit :=
  fun w =>
    (Return tt,
     {| console := console w ++ [entry]; db := db w;
        store := store w; driver_calls := driver_calls w |}).

Definition console_warn (text : string) : M unit := log (LogWarn text).

Definition console_error (label : string) (error : Thrown) : M unit :=
  log (LogError label error).

Definition get_db : M (option D1Database) := fun w => (Return (db w), w).

(** [setDb(db)], and every assignment to [this.db]. *)
Definition setDb (handle : D1Database) : M unit :=
  fun w =>
    (Return tt,
     {| console := console w; db := Some handle;
        store := store w; driver_calls := driver_calls w |}).

(** One call of a driver method: it runs on the state behind the binding
    and is recorded. *)
Definition invoke {A} (call : DriverCall) (method : DS -> Outcome A * DS) : M A :=
  fun w =>
    let '(r, s) := method (store w) in
    (r,
     {| console := console w; db := db w; store := s;
        driver_calls :=
          driver_calls w ++
            [{| ev_call := call;
                ev_thrown := match r with Return _ => None | Throw e => Some e end |}] |}).

End WithDriver.

Arguments D1Database : clear implicits.
Arguments World : clear implicits.
Arguments M : clear implicits.

Declare Scope js_scope.
Delimit Scope js_scope with js.
Notation "x <- m ;; k" := (bind m (fun x => k))
  (at level 100, m at next level, right associativity) : js_scope.
Notation "m ;;; k" := (bind m (fun _ => k))
  (at level 100, right associativity) : js_scope.

Section Service.

Context {DS Stmt : Type}.
Local Open Scope js_scope.

(** The context Remix passes to loaders and actions; every level of
    [context?.cloudflare?.env?.DB] may be missing. *)
Record Env : Type := { DB : option (D1Database DS Stmt) }.
Record Cloudflare : Type := { env : option Env }.
Record Context : Type := { cloudflare : option Cloudflare }.

(** [context?.cloudflare?.env?.DB]. *)
Definition context_DB (context : option Context) : option (D1Database DS Stmt) :=
  match context with
  | Some c =>
      match cloudflare c with
      | Some cf =>
          match env cf with
          | Some e => DB e
          | None => None
          end
      | None => None
      end
  | None => None
  end.

Definition initFromContext (context : option Context) : M DS Stmt bool :=
  match context_DB context with
  | Some handle => setDb handle ;;; ret true
  | None => ret false
  end.

Definition executeQuery (query : string) (params : list SqlValue)
  : M DS Stmt ExecuteResult :=
  this_db <- get_db ;;
  match this_db with
  | None =>
      console_warn ("Attempted to execute query without database: " ++ query) ;;;
      throw (JsError "Database not available")
  | Some handle =>
      try_catch
        (if (0 <? length params)%nat then
           statement <- invoke (CallPrepare query) (d1_prepare handle query) ;;
           bound <- invoke (CallBind params) (d1_bind handle statement params) ;;
           r <- invoke CallRun (d1_run handle bound) ;;
           ret (RanStatement r)
         else
           r <- invoke (CallExec query) (d1_exec handle query) ;;
           ret (ExecutedScript r))
        (fun error =>
           console_error "Database query error:" error ;;;
           throw error)
  end.

Definition getAllRows (query : string) (params : list SqlValue)
  : M DS Stmt D1Result :=
  this_db <- get_db ;;
  match this_db with
  | None =>
      console_warn ("Attempted to get all rows without database: " ++ query) ;;;
      throw (JsError "Database not available")
  | Some handle =>
      try_catch
        (statement <- invoke (CallPrepare query) (d1_prepare handle query) ;;
         if (0 <? length params)%nat then
           bound <- invoke (CallBind params) (d1_bind handle statement params) ;;
           invoke CallAll (d1_all handle bound)
         else
           invoke CallAll (d1_all handle statement))
        (fun error =>
           console_error "Database query error:" error ;;;
           throw error)
  end.

Definition getFirstRow (query : string) (params : list SqlValue)
  : M DS Stmt (option RowObject) :=
  this_db <- get_db ;;
  match this_db with
  | None =>
      console_warn ("Attempted to get first row without database: " ++ query) ;;;
      throw (JsError "Database not available")
  | Some handle =>
      try_catch
        (statement <- invoke (CallPrepare query) (d1_prepare handle query) ;;
         if (0 <? length params)%nat then
           bound <- invoke (CallBind params) (d1_bind handle statement params) ;;
           invoke CallFirst (d1_first handle bound)
         else
           invoke CallFirst (d1_first handle statement))
        (fun error =>
           console_error "Database query error:" error ;;;
           throw error)
  end.

End Service.

Arguments Env : clear implicits.
Arguments Cloudflare : clear implicits.
Arguments Context : clear implicits.

End DbService.

(** ** The settings route *)

Module D1Example.

Import DbService.
Local Open Scope js_scope.

(** A JavaScript value that is a boolean or [null]: what
    [result && result.value === "true"] evaluates to. *)
Inductive JsFlag : Type :=
  | JsNull
  | JsBool (b : bool).

(** Truthiness of such a value. *)
Definition truthy (flag : JsFlag) : bool :=
  match flag with
  | JsNull => false
  | JsBool b => b
  end.

(** An entry of a submitted form is a string or a file. *)
Inductive FormValue : Type :=
  | FormString (s : string)
  | FormFile (name : string).

Definition FormData : Type := list (string * FormValue).

(** [formData.get(name)]: the first value under that name, or [null]. *)
Fixpoint formData_get (formData : FormData) (name : string) : option FormValue :=
  match formData with
  | [] => None
  | (n, v) :: rest => if String.eqb n name then Some v else formData_get rest name
  end.

(** [formData.get(name) === text]. *)
Definition field_is (formData : FormData) (name text : string) : bool :=
  match formData_get formData name with
  | Some (FormString s) => String.eqb s text
  | _ => false
  end.

Module LoaderData.
Record t : Type := {
  isChecked : JsFlag;
  settingsTableName : string;
  dbAvailable : bool;
  allSettings : list RowObject;
  error : option string
}.
End LoaderData.

Module ActionData.
Record t : Type := {
  success : bool;
  isChecked : option bool;
  allSettings : option (list RowObject);
  error : option string
}.
End ActionData.

(** [x || []] for an array that may be undefined. *)
Definition or_empty (rows : option (list RowObject)) : list RowObject :=
  match rows with
  | Some l => l
  | None => []
  end.

(** [b.toString()]. *)
Definition bool_toString (b : bool) : string := if b then "true" else "false".

Section Handlers.

Context {DS Stmt : Type}.

(** The loader, from the point where [authenticate.admin] has resolved. *)
Definition loader (context : option (Context DS Stmt)) : M DS Stmt LoaderData.t :=
  dbAvailable <- initFromContext context ;;
  let settingsTableName := "example_table" in
  if (dbAvailable : bool) then
    try_catch
      (_ <- executeQuery
              ("CREATE TABLE IF NOT EXISTS " ++ settingsTableName ++
               " (key TEXT PRIMARY KEY, value TEXT, updated_at INTEGER)") [] ;;
       result <- getFirstRow
                   ("SELECT value FROM " ++ settingsTableName ++ " WHERE key = ?")
                   [SqlText "test_checkbox"] ;;
       let isChecked :=
         match result with
         | None => JsNull
         | Some row =>
             match row_get row "value" with
             | Some (SqlText s) => JsBool (String.eqb s "true")
             | _ => JsBool false
             end
         end in
       allSettings <- getAllRows
                        ("SELECT key, value, updated_at FROM " ++ settingsTableName) [] ;;
       ret {| LoaderData.isChecked := isChecked;
              LoaderData.settingsTableName := settingsTableName;
              LoaderData.dbAvailable := true;
              LoaderData.allSettings := or_empty (results allSettings);
              LoaderData.error := None |})
      (fun error =>
         console_error "Database error:" error ;;;
         ret {| LoaderData.isChecked := JsBool false;
                LoaderData.settingsTableName := settingsTableName;
                LoaderData.dbAvailable := false;
                LoaderData.allSettings := [];
                LoaderData.error := Some (error_text error) |})
  else
    ret {| LoaderData.isChecked := JsBool false;
           LoaderData.settingsTableName := settingsTableName;
           LoaderData.dbAvailable := false;
           LoaderData.allSettings := [];
           LoaderData.error := None |}.

(** The action, from the point where [authenticate.admin] has resolved;
    [now] is what [Date.now()] returns during the call. *)
Definition action (formData : FormData) (context : option (Context DS Stmt)) (now : Z)
  : M DS Stmt ActionData.t :=
  if field_is formData "action" "updateSettings" then
    let isChecked := field_is formData "isChecked" "true" in
    let tableName := "example_table" in
    dbAvailable <- initFromContext context ;;
    if (dbAvailable : bool) then
      try_catch
        (_ <- executeQuery
                ("INSERT OR REPLACE INTO " ++ tableName ++
                 " (key, value, updated_at) VALUES (?, ?, ?)")
                [SqlText "test_checkbox";
                 SqlText (if isChecked then "true" else "false");
                 SqlInt now] ;;
         allSettings <- getAllRows
                          ("SELECT key, value, updated_at FROM " ++ tableName) [] ;;
         ret {| ActionData.success := true;
                ActionData.isChecked := Some isChecked;
                ActionData.allSettings := Some (or_empty (results allSettings));
                ActionData.error := None |})
        (fun error =>
           console_error "Database error saving setting:" error ;;;
           ret {| ActionData.success := false;
                  ActionData.isChecked := None;
                  ActionData.allSettings := None;
                  ActionData.error := Some (error_text error) |})
    else
      ret {| ActionData.success := false;
             ActionData.isChecked := None;
             ActionData.allSettings := None;
             ActionData.error := Some "Database not available" |}
  else
    ret {| ActionData.success := false;
           ActionData.isChecked := None;
           ActionData.allSettings := None;
           ActionData.error := Some "Unknown action" |}.

End Handlers.

(** *** The view [Index] *)

Inductive FetcherState : Type :=
  | Idle
  | Submitting
  | Loading.

(** The state of the mounted view: the three [useState] cells, the
    fetcher, the [dbAvailable] flag of the loader data, and what the view
    has sent out (forms submitted, toasts shown). *)
Record ViewState : Type := {
  checkboxState : JsFlag;
  saveError : string;
  tableData : list RowObject;
  fetcher_state : FetcherState;
  fetcher_data : option ActionData.t;
  dbAvailable : bool;
  submitted : list FormData;
  toasts : list string
}.

(** The view as first rendered from the loader data. *)
Definition mount (data : LoaderData.t) : ViewState :=
  {| checkboxState := LoaderData.isChecked data;
     saveError := "";
     tableData := LoaderData.allSettings data;
     fetcher_state := Idle;
     fetcher_data := None;
     dbAvailable := LoaderData.dbAvailable data;
     submitted := [];
     toasts := [] |}.

(** Truthiness of [fetcher.data.error] and of [fetcher.data.allSettings]. *)
Definition nonempty (s : option string) : bool :=
  match s with
  | Some text => negb (String.eqb text "")
  | None => false
  end.

(** The body of the effect that depends on [fetcher.data]. *)
Definition fetcherEffect (st : ViewState) : ViewState :=
  let saveError' :=
    match fetcher_data st with
    | Some data =>
        if negb (ActionData.success data) && nonempty (ActionData.error data)
        then match ActionData.error data with Some e => e | None => "" end
        else ""
    | None => ""
    end in
  let tableData' :=
    match fetcher_data st with
    | Some data =>
        if ActionData.success data then
          match ActionData.allSettings data with
          | Some rows => rows
          | None => tableData st
          end
        else tableData st
    | None => tableData st
    end in
  {| checkboxState := checkboxState st;
     saveError := saveError';
     tableData := tableData';
     fetcher_state := fetcher_state st;
     fetcher_data := fetcher_data st;
     dbAvailable := dbAvailable st;
     submitted := submitted st;
     toasts := toasts st |}.

(** The response of the action arrives: [fetcher.data] changes, the
    fetcher is idle again, and the effect runs. *)
Definition receive (response : ActionData.t) (st : ViewState) : ViewState :=
  fetcherEffect
    {| checkboxState := checkboxState st;
       saveError := saveError st;
       tableData := tableData st;
       fetcher_state := Idle;
       fetcher_data := Some response;
       dbAvailable := dbAvailable st;
       submitted := submitted st;
       toasts := toasts st |}.

Definition handleCheckboxChange (checked : bool) (st : ViewState) : ViewState :=
  if dbAvailable st then
    let formData :=
      [("action", FormString "updateSettings");
       ("isChecked", FormString (bool_toString checked))] in
    {| checkboxState := JsBool checked;
       saveError := saveError st;
       tableData := tableData st;
       fetcher_state := Submitting;
       fetcher_data := fetcher_data st;
       dbAvailable := dbAvailable st;
       submitted := submitted st ++ [formData];
       toasts :=
         match fetcher_data st with
         | Some data =>
             if ActionData.success data
             then toasts st ++ ["Setting saved"]
             else toasts st
         | None => toasts st ++ ["Setting saved"]
         end |}
  else
    {| checkboxState := JsBool checked;
       saveError := saveError st;
       tableData := tableData st;
       fetcher_state := fetcher_state st;
       fetcher_data := fetcher_data st;
       dbAvailable := dbAvailable st;
       submitted := submitted st;
       toasts := toasts st ++ ["Database not available, setting not saved"] |}.

End D1Example.

(** ** The database behind the binding

    The engine itself is a service of the platform.  It is modelled here
    for the four statements the settings route issues, on the one table
    those statements name.  A statement or a binding of another shape is
    answered with an error, and so is any call for which the platform has
    a failure scheduled. *)

Module D1.

Import DbService.

(** A row of [example_table (key TEXT PRIMARY KEY, value TEXT,
    updated_at INTEGER)]. *)
Record Setting : Type := {
  key : string;
  value : string;
  updated_at : Z
}.

(** [example_table] is [None] until the table is created; rows are kept
    in the order a full scan returns them.  [faults] holds, for each
    coming execution of a statement, the failure the platform answers
    with, if any. *)
Record Database : Type := {
  example_table : option (list Setting);
  faults : list (option Thrown)
}.

(** A prepared statement: the text and the values bound so far. *)
Definition Statement : Type := (string * list SqlValue)%type.

Definition sql_create : string :=
  "CREATE TABLE IF NOT EXISTS example_table (key TEXT PRIMARY KEY, value TEXT, updated_at INTEGER)".
Definition sql_select_value : string :=
  "SELECT value FROM example_table WHERE key = ?".
Definition sql_select_all : string :=
  "SELECT key, value, updated_at FROM example_table".
Definition sql_upsert : string :=
  "INSERT OR REPLACE INTO example_table (key, value, updated_at) VALUES (?, ?, ?)".

Definition no_such_table : Thrown := JsError "D1_ERROR: no such table: example_table".
Definition unsupported : Thrown := JsError "D1_ERROR: statement outside the modelled fragment".

(** The row object of [SELECT key, value, updated_at]. *)
Definition full_row (r : Setting) : RowObject :=
  [("key", SqlText (key r)); ("value", SqlText (value r));
   ("updated_at", SqlInt (updated_at r))].

(** The row object of [SELECT value]. *)
Definition value_row (r : Setting) : RowObject := [("value", SqlText (value r))].

Definition has_key (k : string) (r : Setting) : bool := String.eqb (key r) k.

(** [INSERT OR REPLACE]: the rows in conflict on the primary key are
    deleted and the new row is appended. *)
Definition upsert (new : Setting) (rows : list Setting) : list Setting :=
  List.filter (fun r => negb (has_key (key new) r)) rows ++ [new].

(** Every execution of a statement consumes one entry of the schedule,
    and fails when that entry holds a failure. *)
Definition execute {A} (run : Database -> Outcome A * Database) (d : Database)
  : Outcome A * Database :=
  let d' := {| example_table := example_table d; faults := List.tl (faults d) |} in
  match List.hd None (faults d) with
  | Some failure => (Throw failure, d')
  | None => run d'
  end.

Definition exec (query : string) : Database -> Outcome D1ExecResult * Database :=
  execute (fun d =>
    if String.eqb query sql_create then
      (Return {| exec_count := 1 |},
       {| example_table :=
            match example_table d with
            | Some rows => Some rows
            | None => Some []
            end;
          faults := faults d |})
    else (Throw unsupported, d)).

Definition prepare (query : string) (d : Database) : Outcome Statement * Database :=
  (Return (query, []), d).

Definition bind_values (statement : Statement) (params : list SqlValue) (d : Database)
  : Outcome Statement * Database :=
  (Return (fst statement, params), d).

Definition run (statement : Statement) : Database -> Outcome D1Result * Database :=
  execute (fun d =>
    if String.eqb (fst statement) sql_upsert then
      match snd statement, example_table d with
      | [SqlText k; SqlText v; SqlInt t], Some rows =>
          (Return {| d1_success := true; results := Some [] |},
           {| example_table :=
                Some (upsert {| key := k; value := v; updated_at := t |} rows);
              faults := faults d |})
      | [SqlText _; SqlText _; SqlInt _], None => (Throw no_such_table, d)
      | _, _ => (Throw unsupported, d)
      end
    else (Throw unsupported, d)).

Definition all (statement : Statement) : Database -> Outcome D1Result * Database :=
  execute (fun d =>
    if String.eqb (fst statement) sql_select_all then
      match snd statement, example_table d with
      | [], Some rows =>
          (Return {| d1_success := true; results := Some (List.map full_row rows) |}, d)
      | [], None => (Throw no_such_table, d)
      | _, _ => (Throw unsupported, d)
      end
    else (Throw unsupported, d)).

Definition first (statement : Statement)
  : Database -> Outcome (option RowObject) * Database :=
  execute (fun d =>
    if String.eqb (fst statement) sql_select_value then
      match snd statement, example_table d with
      | [SqlText k], Some rows =>
          (Return (option_map value_row (List.find (has_key k) rows)), d)
      | [SqlText _], None => (Throw no_such_table, d)
      | _, _ => (Throw unsupported, d)
      end
    else (Throw unsupported, d)).

(** The binding [DB] of the worker. *)
Definition binding : D1Database Database Statement :=
  {| d1_exec := exec;
     d1_prepare := prepare;
     d1_bind := bind_values;
     d1_run := run;
     d1_all := all;
     d1_first := first |}.

(** A context that carries the binding, and one that carries none. *)
Definition with_binding : option (Context Database Statement) :=
  Some {| cloudflare := Some {| env := Some {| DB := Some binding |} |} |}.

Definition without_binding : option (Context Database Statement) :=
  Some {| cloudflare := Some {| env := Some {| DB := None |} |} |}.



(** The rows stored under a key. *)
Definition rows_for (k : string) (d : Database) : list Setting :=
  match example_table d with
  | Some rows => List.filter (has_key k) rows
  | None => []
  end.

(** A fresh worker: nothing logged, no handle set, no table, no call made. *)
Definition fresh_worker (schedule : list (option Thrown)) : World Database Statement :=
  {| console := []; db := None;
     store := {| example_table := None; faults := schedule |};
     driver_calls := [] |}.

(** The requests the settings route serves. *)
Inductive Request : Type :=
  | Load (context : option (Context Database Statement))
  | Submit (formData : D1Example.FormData) (context : option (Context Database Statement))
      (now : Z).

(** The context of a request carries the modelled binding or none. *)
Definition served_by_binding (request : Request) : Prop :=
  let context :=
    match request with
    | Load c => c
    | Submit _ c _ => c
    end in
  context_DB context = None \/ context_DB context = Some binding.

Definition serve (request : Request) (w : World Database Statement)
  : World Database Statement :=
  match request with
  | Load context => snd (D1Example.loader context w)
  | Submit formData context now => snd (D1Example.action formData context now w)
  end.


(** The form the view submits for a boolean. *)
Definition form_of (b : bool) : D1Example.FormData :=
  [("action", D1Example.FormString "updateSettings");
   ("isChecked", D1Example.FormString (D1Example.bool_toString b))].

End D1.

(** ** The component gallery *)

Module WebComponents.

Module StatusEntry.
Record t : Type := {
  id : string;
  name : string;
  status : string;
  time : string
}.
End StatusEntry.

Module SubmittedName.
Record t : Type := {
  name : string;
  time : string
}.
End SubmittedName.

Inductive Direction : Type :=
  | asc
  | desc.

Module SortConfig.
Record t : Type := {
  key : option string;
  direction : Direction
}.
End SortConfig.

Record Toast : Type := {
  message : string;
  duration : Z;
  tone : option string
}.

(** Arrays of status entries live in a heap: an array is named by its
    location, [sort] works in place, spreading and [map] build new arrays. *)
Abbreviation loc := nat.
Abbreviation Heap := (gmap nat (list StatusEntry.t)).

Definition read (h : Heap) (l : loc) : list StatusEntry.t := default [] (h !! l).

Definition alloc (entries : list StatusEntry.t) (h : Heap) : loc * Heap :=
  let l := fresh (dom h) in (l, <[l := entries]> h).

(** The view: its [useState] cells, the heap of its arrays, and what it
    touches outside itself, namely the modal element (absent, or present
    and open or not), whether [window.shopify.toast] exists, and the
    toasts shown so far. *)
Record Page : Type := {
  showBanner : bool;
  toastChecked : bool;
  submittedNames : list SubmittedName.t;
  nameInputValue : string;
  showSpinner : bool;
  buttonLoading : bool;
  componentStatusData : loc;
  sortConfig : SortConfig.t;
  heap : Heap;
  modal : option bool;
  toast_api : bool;
  toasts : list Toast
}.

(** What the clock gives during one handler: [new
    Date().toLocaleTimeString()] and [Date.now()]. *)
Record Clock : Type := {
  localeTime : string;
  now : Z
}.

Definition set_status_data (l : loc) (h : Heap) (p : Page) : Page :=
  {| showBanner := showBanner p; toastChecked := toastChecked p;
     submittedNames := submittedNames p; nameInputValue := nameInputValue p;
     showSpinner := showSpinner p; buttonLoading := buttonLoading p;
     componentStatusData := l; sortConfig := sortConfig p;
     heap := h; modal := modal p; toast_api := toast_api p; toasts := toasts p |}.

(** The view as mounted, with its three seed rows. *)
Definition initial (clock : Clock) (modal_present toast_present : bool) : Page :=
  let seed :=
    [ {| StatusEntry.id := "banner"; StatusEntry.name := "Banner Notification";
         StatusEntry.status := "Inactive"; StatusEntry.time := localeTime clock |};
      {| StatusEntry.id := "toast"; StatusEntry.name := "Toast Notification";
         StatusEntry.status := "Inactive"; StatusEntry.time := localeTime clock |};
      {| StatusEntry.id := "modal"; StatusEntry.name := "Name Form Modal";
         StatusEntry.status := "Inactive"; StatusEntry.time := localeTime clock |} ] in
  let '(l, h) := alloc seed ∅ in
  {| showBanner := false; toastChecked := false; submittedNames := [];
     nameInputValue := ""; showSpinner := false; buttonLoading := false;
     componentStatusData := l;
     sortConfig := {| SortConfig.key := None; SortConfig.direction := asc |};
     heap := h;
     modal := if modal_present then Some false else None;
     toast_api := toast_present; toasts := [] |}.

(** *** Sorting the status table *)

(** [sortConfig.key === key]. *)
Definition key_is (config : SortConfig.t) (key : string) : bool :=
  match SortConfig.key config with
  | Some k => String.eqb k key
  | None => false
  end.

Definition is_asc (d : Direction) : bool :=
  match d with
  | asc => true
  | desc => false
  end.

Definition handleSort (key : string) (p : Page) : Page :=
  let direction :=
    if key_is (sortConfig p) key && is_asc (SortConfig.direction (sortConfig p))
    then desc else asc in
  {| showBanner := showBanner p; toastChecked := toastChecked p;
     submittedNames := submittedNames p; nameInputValue := nameInputValue p;
     showSpinner := showSpinner p; buttonLoading := buttonLoading p;
     componentStatusData := componentStatusData p;
     sortConfig := {| SortConfig.key := Some key; SortConfig.direction := direction |};
     heap := heap p; modal := modal p; toast_api := toast_api p; toasts := toasts p |}.

Inductive SortIcon : Type :=
  | icon_select
  | icon_arrow_up
  | icon_arrow_down.

Definition getSortIcon (columnKey : string) (p : Page) : SortIcon :=
  if negb (key_is (sortConfig p) columnKey) then icon_select
  else if is_asc (SortConfig.direction (sortConfig p)) then icon_arrow_up
  else icon_arrow_down.

(** [item[key]]; [None] is [undefined]. *)
Definition entry_get (item : StatusEntry.t) (key : string) : option string :=
  if String.eqb key "id" then Some (StatusEntry.id item)
  else if String.eqb key "name" then Some (StatusEntry.name item)
  else if String.eqb key "status" then Some (StatusEntry.status item)
  else if String.eqb key "time" then Some (StatusEntry.time item)
  else None.

(** [x < y] on values that are strings or [undefined]: strings compare by
    code units, and a comparison with [undefined] is false. *)
Definition js_lt (x y : option string) : bool :=
  match x, y with
  | Some a, Some b => String.ltb a b
  | _, _ => false
  end.

(** The comparison function handed to [sort]. *)
Definition compareEntries (config : SortConfig.t) (a b : StatusEntry.t) : Z :=
  match SortConfig.key config with
  | None => 0
  | Some k =>
      if js_lt (entry_get a k) (entry_get b k) then
        (if is_asc (SortConfig.direction config) then -1 else 1)
      else if js_lt (entry_get b k) (entry_get a k) then
        (if is_asc (SortConfig.direction config) then 1 else -1)
      else 0
  end.

(** [Array.prototype.sort] is stable: an element moves behind another one
    only when the comparison function asks for it.  With a consistent
    comparison function the result does not depend on the algorithm; an
    insertion sort stands for it. *)
Fixpoint insert_by {A} (compareFn : A -> A -> Z) (x : A) (l : list A) : list A :=
  match l with
  | [] => [x]
  | y :: rest =>
      if 0 <? compareFn x y then y :: insert_by compareFn x rest
      else x :: y :: rest
  end.

Definition sort_by {A} (compareFn : A -> A -> Z) (l : list A) : list A :=
  List.fold_right (insert_by compareFn) [] l.

(** [[...array]]: a new array with the same elements. *)
Definition spread (l : loc) (h : Heap) : loc * Heap := alloc (read h l) h.

(** [array.sort(compareFn)]: sorts the array where it is, returns it. *)
Definition array_sort (compareFn : StatusEntry.t -> StatusEntry.t -> Z) (l : loc) (h : Heap)
  : loc * Heap :=
  (l, <[l := sort_by compareFn (read h l)]> h).

(** Truthiness of [sortConfig.key]. *)
Definition key_set (config : SortConfig.t) : bool :=
  match SortConfig.key config with
  | Some k => negb (String.eqb k "")
  | None => false
  end.

(** The memoised computation: the array the table renders, and the heap
    after computing it. *)
Definition sortedComponentStatusData (p : Page) : loc * Heap :=
  if negb (key_set (sortConfig p)) then (componentStatusData p, heap p)
  else
    let '(copy, h) := spread (componentStatusData p) (heap p) in
    array_sort (compareEntries (sortConfig p)) copy h.

(** *** The status log and the modal form *)

Definition updateComponentStatus (clock : Clock) (id status : string) (p : Page) : Page :=
  let prevData := read (heap p) (componentStatusData p) in
  let '(l, h) :=
    alloc
      (List.map
         (fun item =>
            if String.eqb (StatusEntry.id item) id
            then {| StatusEntry.id := StatusEntry.id item;
                    StatusEntry.name := StatusEntry.name item;
                    StatusEntry.status := status;
                    StatusEntry.time := localeTime clock |}
            else item)
         prevData)
      (heap p) in
  set_status_data l h p.

Definition addSubmittedNameToComponentStatus (clock : Clock) (name time : string) (p : Page)
  : Page :=
  let newEntry :=
    {| StatusEntry.id := "submitted-" ++ NilZero.string_of_int (Z.to_int (now clock));
       StatusEntry.name := "Submitted Name: " ++ name;
       StatusEntry.status := "Submitted";
       StatusEntry.time := time |} in
  let prevData := read (heap p) (componentStatusData p) in
  let '(l, h) := alloc (prevData ++ [newEntry]) (heap p) in
  set_status_data l h p.

(** White space and line terminators, among the code units below 256. *)
Definition is_space (c : ascii) : bool :=
  let n := N_of_ascii c in
  ((9 <=? n) && (n <=? 13) || (n =? 32) || (n =? 160))%N.

Fixpoint trimStart (s : string) : string :=
  match s with
  | EmptyString => EmptyString
  | String c rest => if is_space c then trimStart rest else s
  end.

Fixpoint trimEnd (s : string) : string :=
  match s with
  | EmptyString => EmptyString
  | String c rest =>
      match trimEnd rest with
      | EmptyString => if is_space c then EmptyString else String c EmptyString
      | kept => String c kept
      end
  end.

Definition trim (s : string) : string := trimEnd (trimStart s).

(** A string of white space only (the empty string is one). *)
Fixpoint blank (s : string) : bool :=
  match s with
  | EmptyString => true
  | String c rest => is_space c && blank rest
  end.

Definition set_name_input (text : string) (p : Page) : Page :=
  {| showBanner := showBanner p; toastChecked := toastChecked p;
     submittedNames := submittedNames p; nameInputValue := text;
     showSpinner := showSpinner p; buttonLoading := buttonLoading p;
     componentStatusData := componentStatusData p; sortConfig := sortConfig p;
     heap := heap p; modal := modal p; toast_api := toast_api p; toasts := toasts p |}.

Definition set_submitted_names (names : list SubmittedName.t) (p : Page) : Page :=
  {| showBanner := showBanner p; toastChecked := toastChecked p;
     submittedNames := names; nameInputValue := nameInputValue p;
     showSpinner := showSpinner p; buttonLoading := buttonLoading p;
     componentStatusData := componentStatusData p; sortConfig := sortConfig p;
     heap := heap p; modal := modal p; toast_api := toast_api p; toasts := toasts p |}.

Definition set_modal (open : bool) (p : Page) : Page :=
  {| showBanner := showBanner p; toastChecked := toastChecked p;
     submittedNames := submittedNames p; nameInputValue := nameInputValue p;
     showSpinner := showSpinner p; buttonLoading := buttonLoading p;
     componentStatusData := componentStatusData p; sortConfig := sortConfig p;
     heap := heap p; modal := Some open; toast_api := toast_api p; toasts := toasts p |}.

(** [window.shopify?.toast?.show(...)]: nothing happens without the API. *)
Definition toast_show (t : Toast) (p : Page) : Page :=
  if toast_api p then
    {| showBanner := showBanner p; toastChecked := toastChecked p;
       submittedNames := submittedNames p; nameInputValue := nameInputValue p;
       showSpinner := showSpinner p; buttonLoading := buttonLoading p;
       componentStatusData := componentStatusData p; sortConfig := sortConfig p;
       heap := heap p; modal := modal p; toast_api := toast_api p;
       toasts := toasts p ++ [t] |}
  else p.

(** [if (modal) modal.hide()]: the element closes and its [hide] listener,
    registered when the view mounted, marks the modal inactive. *)
Definition modal_hide (clock : Clock) (p : Page) : Page :=
  match modal p with
  | Some _ => updateComponentStatus clock "modal" "Inactive" (set_modal false p)
  | None => p
  end.

Definition handleNameChange (text : string) (p : Page) : Page := set_name_input text p.

Definition handleSave (clock : Clock) (p : Page) : Page :=
  if negb (String.eqb (nameInputValue p) "")
     && negb (String.eqb (trim (nameInputValue p)) "")
  then
    let newName := trim (nameInputValue p) in
    let currentTime := localeTime clock in
    let p1 :=
      set_submitted_names
        (submittedNames p ++
           [{| SubmittedName.name := newName; SubmittedName.time := currentTime |}]) p in
    let p2 := addSubmittedNameToComponentStatus clock newName currentTime p1 in
    let p3 := set_name_input "" p2 in
    modal_hide clock p3
  else
    toast_show
      {| message := "Please enter a name before saving";
         duration := 2000; tone := Some "critical" |} p.

Definition handleCancel (clock : Clock) (p : Page) : Page :=
  modal_hide clock (set_name_input "" p).

End WebComponents.

(** * Properties *)

(** ** The accessor *)

Module DbServiceFacts.

Import DbService.



Definition all_passed (events : list DriverEvent) : Prop :=
  Forall (fun ev => ev_thrown ev = None) events.

Section Contract.

Context {DS Stmt A : Type}.




End Contract.

Ltac split_call c :=
  let r := fresh "r" in
  let s := fresh "s" in
  let e := fresh "e" in
  destruct c as [[r|e] s]; simpl.

Ltac run_driver :=
  unfold bind, try_catch, invoke, ret, throw, get_db, console_error, console_warn, log;
  simpl;
  repeat match goal with
    | |- context [ d1_exec ?h ?q ?s ] => split_call (d1_exec h q s)
    | |- context [ d1_prepare ?h ?q ?s ] => split_call (d1_prepare h q s)
    | |- context [ d1_bind ?h ?t ?ps ?s ] => split_call (d1_bind h t ps s)
    | |- context [ d1_run ?h ?t ?s ] => split_call (d1_run h t s)
    | |- context [ d1_all ?h ?t ?s ] => split_call (d1_all h t s)
    | |- context [ d1_first ?h ?t ?s ] => split_call (d1_first h t s)
    end.




Lemma prefix_of_refl_calls (l : list DriverCall) : l `prefix_of` l.
Proof. reflexivity. Qed.

Lemma prefix_of_1 (a : DriverCall) l : [a] `prefix_of` a :: l.
Proof. exists l. reflexivity. Qed.

Lemma prefix_of_2 (a b : DriverCall) l : [a; b] `prefix_of` a :: b :: l.
Proof. exists l. reflexivity. Qed.

Create HintDb calls.

#[local] Hint Resolve prefix_of_refl_calls prefix_of_1 prefix_of_2 : calls.

Section AccessorLemmas.

Context {DS Stmt : Type}.







End AccessorLemmas.


(** A worker that holds the binding while the platform answers the next
    execution with a failure. *)
Definition offline : World D1.Database D1.Statement :=
  {| console := []; db := Some D1.binding;
     store := {| D1.example_table := None;
                 D1.faults := [Some (JsOther "network")] |};
     driver_calls := [] |}.

Example offline_getAllRows :
  getAllRows D1.sql_select_all [] offline =
    (Throw (JsOther "network"),
     {| console := [LogError "Database query error:" (JsOther "network")];
        db := Some D1.binding;
        store := {| D1.example_table := None; D1.faults := [] |};
        driver_calls :=
          [{| ev_call := CallPrepare D1.sql_select_all; ev_thrown := None |};
           {| ev_call := CallAll; ev_thrown := Some (JsOther "network") |}] |}).
Proof. reflexivity. Qed.


End DbServiceFacts.

(** ** The settings route on the modelled database *)

Module SettingsFacts.

Import DbService D1Example D1.

(** The statements the route builds are the four the model answers. *)
Lemma route_statements :
  ("CREATE TABLE IF NOT EXISTS " ++ "example_table" ++
     " (key TEXT PRIMARY KEY, value TEXT, updated_at INTEGER)") = sql_create /\
  ("SELECT value FROM " ++ "example_table" ++ " WHERE key = ?") = sql_select_value /\
  ("SELECT key, value, updated_at FROM " ++ "example_table") = sql_select_all /\
  ("INSERT OR REPLACE INTO " ++ "example_table" ++
     " (key, value, updated_at) VALUES (?, ?, ?)") = sql_upsert.
Proof. repeat split. Qed.

(** The row a write of [checked] at time [now] stores. *)
Definition written_row (checked : bool) (now : Z) : Setting :=
  {| key := "test_checkbox"; value := bool_toString checked; updated_at := now |}.

Lemma has_key_eq k r : has_key k r = true <-> key r = k.
Proof. unfold has_key. apply String.eqb_eq. Qed.

Lemma filter_upsert_same new rows :
  List.filter (has_key (key new)) (upsert new rows) = [new].
Proof.
  unfold upsert. rewrite List.filter_app. simpl.
  assert (Hnew : has_key (key new) new = true) by (apply has_key_eq; reflexivity).
  rewrite Hnew.
  assert (Hold : List.filter (has_key (key new))
                   (List.filter (fun r => negb (has_key (key new) r)) rows) = []).
  { induction rows as [|r rows IH]; simpl; [ reflexivity | ].
    destruct (has_key (key new) r) eqn:Hr; simpl; [ exact IH | ].
    rewrite Hr. exact IH. }
  rewrite Hold. reflexivity.
Qed.

Lemma find_upsert_same new rows :
  List.find (has_key (key new)) (upsert new rows) = Some new.
Proof.
  unfold upsert.
  assert (Hnew : has_key (key new) new = true) by (apply has_key_eq; reflexivity).
  induction rows as [|r rows IH]; simpl.
  - rewrite Hnew. reflexivity.
  - destruct (has_key (key new) r) eqn:Hr; simpl; [ exact IH | ].
    rewrite Hr. exact IH.
Qed.



(** Case analysis on the next three entries of the schedule, and on the
    table being there. *)
Ltac split_store fl tbl :=
  let f := fresh "f" in
  let f' := fresh "f" in
  let f'' := fresh "f" in
  let rows := fresh "rows" in
  destruct fl as [|[f|] [|[f'|] [|[f''|] fl]]]; destruct tbl as [rows|].

Ltac settle :=
  vm_compute; repeat split; intros; try discriminate; try congruence; auto.

(** What the store holds after the action, on the modelled binding. *)
Definition after_write (checked : bool) (now : Z) (table : option (list Setting))
  : option (list Setting) :=
  match table with
  | Some rows => Some (upsert (written_row checked now) rows)
  | None => None
  end.

Lemma action_on_binding formData context now w :
  context_DB context = Some binding ->
  field_is formData "action" "updateSettings" = true ->
  let checked := field_is formData "isChecked" "true" in
  match action formData context now w with
  | (Return written, w1) =>
      (ActionData.success written = true ->
         example_table (store w1) = after_write checked now (example_table (store w)) /\
         example_table (store w) <> None /\
         ActionData.isChecked written = Some checked) /\
      (example_table (store w1) = example_table (store w) \/
       example_table (store w1) = after_write checked now (example_table (store w))) /\
      (List.hd None (faults (store w)) = None ->
       List.hd None (List.tl (faults (store w))) = None ->
       example_table (store w) <> None ->
       ActionData.success written = true)
  | (Throw _, _) => False
  end.
Proof.
  intros Hctx Haction checked. subst checked.
  destruct w as [c h [tbl fl] calls].
  unfold action, initFromContext. rewrite Haction, Hctx.
  generalize (field_is formData "isChecked" "true"). intros checked.
  split_store fl tbl; settle.
Qed.

Lemma action_without_binding {DS Stmt} formData (context : option (Context DS Stmt)) now w :
  context_DB context = None ->
  field_is formData "action" "updateSettings" = true ->
  action formData context now w =
    (Return {| ActionData.success := false;
               ActionData.isChecked := None;
               ActionData.allSettings := None;
               ActionData.error := Some "Database not available" |}, w).
Proof.
  intros Hctx Haction. unfold action, initFromContext. rewrite Haction, Hctx.
  reflexivity.
Qed.

Lemma action_unknown {DS Stmt} formData (context : option (Context DS Stmt)) now w :
  field_is formData "action" "updateSettings" = false ->
  action formData context now w =
    (Return {| ActionData.success := false;
               ActionData.isChecked := None;
               ActionData.allSettings := None;
               ActionData.error := Some "Unknown action" |}, w).
Proof. intros Haction. unfold action. rewrite Haction. reflexivity. Qed.

(** What the loader makes of the row [getFirstRow] resolves to, and of a
    table. *)
Definition flag_of_result (result : option RowObject) : JsFlag :=
  match result with
  | None => JsNull
  | Some row =>
      match row_get row "value" with
      | Some (SqlText s) => JsBool (String.eqb s "true")
      | _ => JsBool false
      end
  end.

Definition stored_flag (rows : list Setting) : JsFlag :=
  flag_of_result (option_map value_row (List.find (has_key "test_checkbox") rows)).

Lemma stored_flag_found rows r :
  List.find (has_key "test_checkbox") rows = Some r ->
  stored_flag rows = JsBool (String.eqb (value r) "true").
Proof. unfold stored_flag. intros ->. reflexivity. Qed.

Lemma loader_on_binding context w :
  context_DB context = Some binding ->
  let rows := default [] (example_table (store w)) in
  match loader context w with
  | (Return read, w1) =>
      (LoaderData.dbAvailable read = true ->
         LoaderData.isChecked read = stored_flag rows /\
         LoaderData.allSettings read = List.map full_row rows) /\
      (example_table (store w1) = example_table (store w) \/
       example_table (store w1) = Some rows) /\
      (List.hd None (faults (store w)) = None ->
       List.hd None (List.tl (faults (store w))) = None ->
       List.hd None (List.tl (List.tl (faults (store w)))) = None ->
       LoaderData.dbAvailable read = true)
  | (Throw _, _) => False
  end.
Proof.
  intros Hctx rows. subst rows.
  destruct w as [c h [tbl fl] calls].
  unfold loader, initFromContext. rewrite Hctx.
  split_store fl tbl; settle.
Qed.

Lemma loader_without_binding {DS Stmt} (context : option (Context DS Stmt)) w :
  context_DB context = None ->
  loader context w =
    (Return {| LoaderData.isChecked := JsBool false;
               LoaderData.settingsTableName := "example_table";
               LoaderData.dbAvailable := false;
               LoaderData.allSettings := [];
               LoaderData.error := None |}, w).
Proof.
  intros Hctx. unfold loader, initFromContext. rewrite Hctx. reflexivity.
Qed.

Lemma field_is_true formData name text :
  field_is formData name text = true <->
  formData_get formData name = Some (FormString text).
Proof.
  unfold field_is. destruct (formData_get formData name) as [[s|f]|].
  - rewrite String.eqb_eq. split; congruence.
  - split; discriminate.
  - split; discriminate.
Qed.

Lemma field_is_encoding formData (b : bool) :
  formData_get formData "isChecked" = Some (FormString (bool_toString b)) ->
  field_is formData "isChecked" "true" = b.
Proof. unfold field_is. intros ->. destruct b; reflexivity. Qed.




(** After a write that reports success the key holds exactly the row
    written. *)
Lemma written_once formData context now w written w1 :
  context_DB context = Some binding ->
  field_is formData "action" "updateSettings" = true ->
  action formData context now w = (Return written, w1) ->
  ActionData.success written = true ->
  rows_for "test_checkbox" (store w1) =
    [written_row (field_is formData "isChecked" "true") now] /\
  List.find (has_key "test_checkbox") (default [] (example_table (store w1))) =
    Some (written_row (field_is formData "isChecked" "true") now) /\
  ActionData.isChecked written = Some (field_is formData "isChecked" "true").
Proof.
  intros Hctx Haction Hrun Hsuccess.
  pose proof (action_on_binding formData context now w Hctx Haction) as H.
  simpl in H. rewrite Hrun in H. destruct H as (H & _ & _).
  destruct (H Hsuccess) as (Htable & Hsome & Hflag).
  unfold rows_for. rewrite Htable.
  destruct (example_table (store w)) as [rows|]; [ simpl | congruence ].
  repeat split.
  - apply (filter_upsert_same (written_row _ now)).
  - apply (find_upsert_same (written_row _ now)).
  - exact Hflag.
Qed.

(** A worker whose table exists and whose platform schedules no failure. *)
Definition ready : World Database Statement :=
  snd (loader with_binding (fresh_worker [])).

(** The scenario of the specification: write true, read; write false. *)
Example scenario :
  let w1 := snd (action (form_of true) with_binding 1700000000000 ready) in
  let w2 := snd (action (form_of false) with_binding 1700000000500 w1) in
  option_map LoaderData.isChecked
    (match fst (loader with_binding w1) with Return r => Some r | Throw _ => None end) =
    Some (JsBool true) /\
  option_map LoaderData.allSettings
    (match fst (loader with_binding w1) with Return r => Some r | Throw _ => None end) =
    Some [[("key", SqlText "test_checkbox"); ("value", SqlText "true");
           ("updated_at", SqlInt 1700000000000)]] /\
  example_table (store w2) =
    Some [{| key := "test_checkbox"; value := "false"; updated_at := 1700000000500 |}].
Proof. vm_compute. repeat split. Qed.

(** C1. A boolean written through the action and read back by the loader
    comes back unchanged: a successful write of [b] stores the text
    "true" or "false" under "test_checkbox", and a loader that then finds
    the database available reports [isChecked] equal to [b]. *)
Theorem write_read_roundtrip (b : bool) formData context context' now w written w1 read w2 :
  context_DB context = Some binding ->
  context_DB context' = Some binding ->
  field_is formData "action" "updateSettings" = true ->
  formData_get formData "isChecked" = Some (FormString (bool_toString b)) ->
  action formData context now w = (Return written, w1) ->
  ActionData.success written = true ->
  loader context' w1 = (Return read, w2) ->
  LoaderData.dbAvailable read = true ->
  rows_for "test_checkbox" (store w1) =
    [{| key := "test_checkbox"; value := if b then "true" else "false";
        updated_at := now |}] /\
  LoaderData.isChecked read = JsBool b.
Proof.
  intros Hctx Hctx' Haction Hfield Hwrite Hsuccess Hread Havailable.
  destruct (written_once formData context now w written w1 Hctx Haction Hwrite Hsuccess)
    as (Hrows & Hfind & _).
  rewrite (field_is_encoding formData b Hfield) in Hrows, Hfind.
  split; [ exact Hrows | ].
  pose proof (loader_on_binding context' w1 Hctx') as H. simpl in H.
  rewrite Hread in H. destruct H as (H & _ & _).
  destruct (H Havailable) as [-> _].
  rewrite (stored_flag_found _ _ Hfind). destruct b; reflexivity.
Qed.

Lemma write_read_roundtrip_witness :
  exists written w1 read w2,
    action (form_of true) with_binding 1700000000000 ready = (Return written, w1) /\
    ActionData.success written = true /\
    loader with_binding w1 = (Return read, w2) /\
    LoaderData.dbAvailable read = true /\
    rows_for "test_checkbox" (store w1) =
      [{| key := "test_checkbox"; value := "true"; updated_at := 1700000000000 |}] /\
    LoaderData.isChecked read = JsBool true.
Proof.
  destruct (action (form_of true) with_binding 1700000000000 ready)
    as [[written|e] w1] eqn:Hwrite; [ | vm_compute in Hwrite; discriminate ].
  destruct (loader with_binding w1) as [[read|e] w2] eqn:Hread.
  2:{ vm_compute in Hwrite. injection Hwrite as _ <-.
      vm_compute in Hread. discriminate. }
  assert (Hsuccess : ActionData.success written = true).
  { vm_compute in Hwrite. injection Hwrite as <- _. reflexivity. }
  assert (Havailable : LoaderData.dbAvailable read = true).
  { vm_compute in Hwrite. injection Hwrite as _ <-.
    vm_compute in Hread. injection Hread as <- _. reflexivity. }
  exists written, w1, read, w2. repeat split; try assumption.
  - apply (write_read_roundtrip true (form_of true) with_binding with_binding
             1700000000000 ready written w1 read w2); auto.
  - apply (write_read_roundtrip true (form_of true) with_binding with_binding
             1700000000000 ready written w1 read w2); auto.
Defined.



(** C3. Without a database binding in the context nothing throws: the
    loader returns its defaults, with [dbAvailable] false, [isChecked]
    false and no settings, and the action for [updateSettings] returns a
    failure with a message that is not empty.  Neither touches the world. *)
Theorem unavailable_defaults {DS Stmt : Type} (context : option (Context DS Stmt))
    (w : World DS Stmt) :
  context_DB context = None ->
  (exists read,
      loader context w = (Return read, w) /\
      LoaderData.dbAvailable read = false /\
      LoaderData.isChecked read = JsBool false /\
      LoaderData.allSettings read = []) /\
  (forall formData now,
      field_is formData "action" "updateSettings" = true ->
      exists written message,
        action formData context now w = (Return written, w) /\
        ActionData.success written = false /\
        ActionData.error written = Some message /\
        message <> "").
Proof.
  intros Hctx. split.
  - eexists. rewrite (loader_without_binding context w Hctx).
    repeat split.
  - intros formData now Haction. do 2 eexists.
    rewrite (action_without_binding formData context now w Hctx Haction).
    repeat split. discriminate.
Qed.

Lemma unavailable_defaults_witness :
  exists read,
    loader without_binding (fresh_worker []) = (Return read, fresh_worker []) /\
    LoaderData.dbAvailable read = false /\
    LoaderData.isChecked read = JsBool false /\
    LoaderData.allSettings read = [].
Proof.
  apply (unavailable_defaults without_binding (fresh_worker [])). reflexivity.
Defined.

(** C10. The action reads [isChecked] as true exactly when the field is
    the string "true".  Any other entry, a missing one included, is
    handled as the form with [isChecked=false] is: the outcome is the
    same, the text stored on success is "false", and no value of the
    field is rejected. *)
Theorem isChecked_reading :
  (forall formData,
      field_is formData "isChecked" "true" = true <->
      formData_get formData "isChecked" = Some (FormString "true")) /\
  (forall (DS Stmt : Type) formData (context : option (Context DS Stmt)) now w,
      field_is formData "action" "updateSettings" = true ->
      action formData context now w =
        action (form_of (field_is formData "isChecked" "true")) context now w) /\
  (forall formData context now w written w1,
      context_DB context = Some binding ->
      field_is formData "action" "updateSettings" = true ->
      action formData context now w = (Return written, w1) ->
      ActionData.success written = true ->
      rows_for "test_checkbox" (store w1) =
        [{| key := "test_checkbox";
            value := if field_is formData "isChecked" "true" then "true" else "false";
            updated_at := now |}] /\
      ActionData.isChecked written = Some (field_is formData "isChecked" "true")) /\
  (forall formData context now w,
      context_DB context = Some binding ->
      field_is formData "action" "updateSettings" = true ->
      faults (store w) = [] ->
      example_table (store w) <> None ->
      exists written w1,
        action formData context now w = (Return written, w1) /\
        ActionData.success written = true).
Proof.
  split; [ | split; [ | split ] ].
  - intros formData. apply field_is_true.
  - intros DS Stmt formData context now w Haction.
    unfold action. rewrite Haction.
    destruct (field_is formData "isChecked" "true"); reflexivity.
  - intros formData context now w written w1 Hctx Haction Hrun Hsuccess.
    destruct (written_once formData context now w written w1) as (Hrows & _ & Hflag);
      auto.
  - intros formData context now w Hctx Haction Hfaults Htable.
    pose proof (action_on_binding formData context now w Hctx Haction) as H.
    simpl in H.
    destruct (action formData context now w) as [[written|e] w1]; [ | contradiction ].
    exists written, w1. split; [ reflexivity | ].
    destruct H as (_ & _ & H). apply H; [ | | exact Htable ]; rewrite Hfaults; reflexivity.
Qed.

Lemma isChecked_reading_witness :
  action [("action", FormString "updateSettings"); ("isChecked", FormString "yes")]
    with_binding 1700000000000 ready =
  action (form_of false) with_binding 1700000000000 ready.
Proof.
  apply (proj1 (proj2 isChecked_reading) Database Statement
           [("action", FormString "updateSettings"); ("isChecked", FormString "yes")]
           with_binding 1700000000000 ready).
  reflexivity.
Defined.

(** *** The view *)

Definition receive_all (responses : list ActionData.t) (st : ViewState) : ViewState :=
  List.fold_left (fun st response => receive response st) responses st.

Lemma receive_frame response st :
  checkboxState (receive response st) = checkboxState st /\
  dbAvailable (receive response st) = dbAvailable st /\
  submitted (receive response st) = submitted st /\
  toasts (receive response st) = toasts st.
Proof. repeat split. Qed.

Lemma receive_all_checkbox responses st :
  checkboxState (receive_all responses st) = checkboxState st.
Proof.
  revert st. induction responses as [|response responses IH]; intros st; simpl.
  - reflexivity.
  - rewrite IH. reflexivity.
Qed.

Lemma toggle_checkbox checked st :
  checkboxState (handleCheckboxChange checked st) = JsBool checked.
Proof. unfold handleCheckboxChange. destruct (dbAvailable st); reflexivity. Qed.

(** C9. A toggle shows the new value at once, while the write is only
    submitted; no response handled afterwards changes what the checkbox
    shows, so after a failed write the toggled value stays on display next
    to the error message.  The effect run on a response changes the error
    text and the table data only. *)
Theorem toggle_not_rolled_back :
  (forall checked st,
      checkboxState (handleCheckboxChange checked st) = JsBool checked /\
      fetcher_data (handleCheckboxChange checked st) = fetcher_data st /\
      (dbAvailable st = true ->
         fetcher_state (handleCheckboxChange checked st) = Submitting /\
         submitted (handleCheckboxChange checked st) =
           (submitted st ++
              [[("action", FormString "updateSettings");
                ("isChecked", FormString (if checked then "true" else "false"))]])%list)) /\
  (forall response st,
      checkboxState (receive response st) = checkboxState st /\
      dbAvailable (receive response st) = dbAvailable st /\
      submitted (receive response st) = submitted st /\
      toasts (receive response st) = toasts st) /\
  (forall checked st responses,
      checkboxState (receive_all responses (handleCheckboxChange checked st)) =
        JsBool checked) /\
  (forall checked st response message,
      ActionData.success response = false ->
      ActionData.error response = Some message ->
      message <> "" ->
      checkboxState (receive response (handleCheckboxChange checked st)) = JsBool checked /\
      saveError (receive response (handleCheckboxChange checked st)) = message /\
      tableData (receive response (handleCheckboxChange checked st)) = tableData st).
Proof.
  split; [ | split; [ | split ] ].
  - intros checked st. split; [ apply toggle_checkbox | ].
    unfold handleCheckboxChange. destruct (dbAvailable st); simpl.
    + split; [ reflexivity | ]. intros _. destruct checked; split; reflexivity.
    + split; [ reflexivity | discriminate ].
  - apply receive_frame.
  - intros checked st responses. rewrite receive_all_checkbox. apply toggle_checkbox.
  - intros checked st response message Hfailed Herror Hmessage.
    split; [ apply toggle_checkbox | ].
    unfold receive, fetcherEffect. simpl. rewrite Hfailed, Herror. simpl.
    destruct (String.eqb_spec message "") as [Heq|_]; [ contradiction | ]. simpl.
    split; [ reflexivity | ].
    unfold handleCheckboxChange. destruct (dbAvailable st); reflexivity.
Qed.

Lemma toggle_not_rolled_back_witness :
  let response :=
    {| ActionData.success := false; ActionData.isChecked := None;
       ActionData.allSettings := None;
       ActionData.error := Some "Database not available" |} in
  let st :=
    mount {| LoaderData.isChecked := JsBool false;
             LoaderData.settingsTableName := "example_table";
             LoaderData.dbAvailable := true;
             LoaderData.allSettings := [];
             LoaderData.error := None |} in
  checkboxState (receive response (handleCheckboxChange true st)) = JsBool true /\
  saveError (receive response (handleCheckboxChange true st)) = "Database not available" /\
  tableData (receive response (handleCheckboxChange true st)) = tableData st.
Proof.
  intros response st.
  apply (proj2 (proj2 (proj2 toggle_not_rolled_back)) true st response
           "Database not available"); [ reflexivity | reflexivity | discriminate ].
Defined.

End SettingsFacts.

(** ** The component gallery *)

Module GalleryFacts.

Import WebComponents.

(** [n] clicks on the header of one column. *)
Definition clicks (n : nat) (column : string) (p : Page) : Page :=
  Nat.iter n (handleSort column) p.

(** The view at 9:00:00 AM, with the modal and the toast API present. *)
Definition morning : Page :=
  initial {| localeTime := "9:00:00 AM"; now := 1700000000000 |} true true.

Definition direction_of (p : Page) : Direction := SortConfig.direction (sortConfig p).

Definition flip (d : Direction) : Direction :=
  match d with
  | asc => desc
  | desc => asc
  end.

Lemma key_is_after_sort key column p :
  key_is (sortConfig (handleSort key p)) column = String.eqb key column.
Proof. reflexivity. Qed.

Lemma direction_after_sort key p :
  direction_of (handleSort key p) =
    if key_is (sortConfig p) key && is_asc (direction_of p) then desc else asc.
Proof. reflexivity. Qed.

Lemma second_click_flips key p :
  direction_of (handleSort key (handleSort key p)) = flip (direction_of (handleSort key p)).
Proof.
  unfold direction_of, handleSort, key_is. simpl. rewrite String.eqb_refl. simpl.
  destruct (_ && _); reflexivity.
Qed.

(** C5, as stated, fails where the column clicked is already sorted
    ascending: the first click gives descending, the second ascending. *)
Lemma sort_twice_counterexample :
  let p := handleSort "name" morning in
  sortConfig p = {| SortConfig.key := Some "name"; SortConfig.direction := asc |} /\
  direction_of (handleSort "name" p) = desc /\
  direction_of (handleSort "name" (handleSort "name" p)) = asc.
Proof. repeat split. Qed.

(** C5, amended.  In every sort state a second click on the same header
    gives the opposite direction of the first.  The first click gives
    ascending and the second descending, unless the column is the one
    sorted ascending already, where the first gives descending and the
    second ascending.  A click on a column other than the sorted one gives
    ascending. *)
Theorem sort_twice_toggles :
  (forall key p,
      direction_of (handleSort key (handleSort key p)) =
        flip (direction_of (handleSort key p)) /\
      SortConfig.key (sortConfig (handleSort key p)) = Some key) /\
  (forall key p,
      key_is (sortConfig p) key && is_asc (direction_of p) = false ->
      direction_of (handleSort key p) = asc /\
      direction_of (handleSort key (handleSort key p)) = desc) /\
  (forall key p,
      key_is (sortConfig p) key && is_asc (direction_of p) = true ->
      direction_of (handleSort key p) = desc /\
      direction_of (handleSort key (handleSort key p)) = asc) /\
  (forall key p,
      key_is (sortConfig p) key = false ->
      direction_of (handleSort key p) = asc).
Proof.
  split; [ | split; [ | split ] ].
  - intros key p. split; [ apply second_click_flips | reflexivity ].
  - intros key p H. rewrite second_click_flips, direction_after_sort, H.
    split; reflexivity.
  - intros key p H. rewrite second_click_flips, direction_after_sort, H.
    split; reflexivity.
  - intros key p H. rewrite direction_after_sort, H. reflexivity.
Qed.

Lemma sort_twice_toggles_witness :
  direction_of (handleSort "status" (handleSort "name" morning)) = asc.
Proof.
  apply (proj2 (proj2 (proj2 sort_twice_toggles)) "status" (handleSort "name" morning)).
  reflexivity.
Defined.

(** The icon of a column after [n + 1] clicks on its header. *)
Lemma icon_after_clicks column n p :
  key_is (sortConfig p) column = false ->
  getSortIcon column (clicks (S n) column p) =
    if Nat.even n then icon_arrow_up else icon_arrow_down.
Proof.
  intros Hkey.
  assert (H : key_is (sortConfig (clicks (S n) column p)) column = true /\
              direction_of (clicks (S n) column p) = if Nat.even n then asc else desc).
  { induction n as [|n [IHk IHd]].
    - change (clicks 1 column p) with (handleSort column p).
      rewrite key_is_after_sort, String.eqb_refl.
      rewrite direction_after_sort, Hkey. auto.
    - split.
      + change (clicks (S (S n)) column p)
          with (handleSort column (clicks (S n) column p)).
        rewrite key_is_after_sort. apply String.eqb_refl.
      + change (clicks (S (S n)) column p)
          with (handleSort column (clicks (S n) column p)).
        rewrite direction_after_sort, IHk, IHd.
        rewrite Nat.even_succ, <- Nat.negb_even.
        destruct (Nat.even n); reflexivity. }
  destruct H as [Hk Hd]. unfold getSortIcon. rewrite Hk. cbn [negb].
  unfold direction_of in Hd. rewrite Hd.
  destruct (Nat.even n); reflexivity.
Qed.

(** C6, as stated, fails: the third sort of a column gives ascending
    again, and no number of sorts of that column brings it back to the
    unsorted state. *)
Lemma three_state_cycle_counterexample :
  getSortIcon "name" morning = icon_select /\
  getSortIcon "name" (clicks 1 "name" morning) = icon_arrow_up /\
  getSortIcon "name" (clicks 2 "name" morning) = icon_arrow_down /\
  getSortIcon "name" (clicks 3 "name" morning) = icon_arrow_up /\
  ~ (exists n, getSortIcon "name" (clicks (S n) "name" morning) = icon_select).
Proof.
  repeat split. intros [n H].
  rewrite icon_after_clicks in H by reflexivity.
  destruct (Nat.even n); discriminate.
Qed.

(** C6, amended.  A column has three states on display, unsorted,
    ascending and descending.  From the unsorted state, sorts of the same
    column give ascending, then descending, then ascending again, and so
    on in turns: they never give unsorted.  After any sort the table has a
    sort column; a column is shown unsorted again only once another column
    is sorted. *)
Theorem two_state_cycle :
  (forall column n p,
      key_is (sortConfig p) column = false ->
      getSortIcon column p = icon_select /\
      getSortIcon column (clicks (S n) column p) =
        (if Nat.even n then icon_arrow_up else icon_arrow_down) /\
      getSortIcon column (clicks (S n) column p) <> icon_select) /\
  (forall key p, SortConfig.key (sortConfig (handleSort key p)) = Some key) /\
  (forall key column p,
      getSortIcon column (handleSort key p) = icon_select <-> key <> column).
Proof.
  split; [ | split ].
  - intros column n p Hkey. split; [ | split ].
    + unfold getSortIcon. rewrite Hkey. reflexivity.
    + apply icon_after_clicks. exact Hkey.
    + rewrite icon_after_clicks by exact Hkey. destruct (Nat.even n); discriminate.
  - reflexivity.
  - intros key column p. unfold getSortIcon. rewrite key_is_after_sort.
    destruct (String.eqb_spec key column) as [Heq|Hne]; simpl.
    + split; [ | contradiction ].
      destruct (is_asc _); intros H; discriminate H.
    + split; [ intros _; exact Hne | reflexivity ].
Qed.

Lemma two_state_cycle_witness :
  getSortIcon "status" morning = icon_select /\
  getSortIcon "status" (clicks 3 "status" morning) = icon_arrow_up /\
  getSortIcon "status" (clicks 3 "status" morning) <> icon_select.
Proof.
  apply (proj1 two_state_cycle "status" 2%nat morning). reflexivity.
Defined.

(** *** The modal form *)

Lemma trimStart_blank s : blank s = true -> trimStart s = "".
Proof.
  induction s as [|c s IH]; simpl; [ reflexivity | ].
  destruct (is_space c); simpl; [ exact IH | discriminate ].
Qed.

Lemma trimEnd_empty s : trimEnd s = "" -> blank s = true.
Proof.
  induction s as [|c s IH]; simpl; [ reflexivity | ].
  destruct (trimEnd s); [ | discriminate ].
  destruct (is_space c); [ intros _; apply IH; reflexivity | discriminate ].
Qed.

Lemma blank_trimStart s : blank (trimStart s) = true -> blank s = true.
Proof.
  induction s as [|c s IH]; simpl; [ reflexivity | ].
  destruct (is_space c) eqn:Hc; simpl; [ exact IH | ].
  rewrite Hc. discriminate.
Qed.

Lemma trim_empty s : trim s = "" <-> blank s = true.
Proof.
  unfold trim. split.
  - intros H. apply blank_trimStart, trimEnd_empty, H.
  - intros H. rewrite (trimStart_blank s H). reflexivity.
Qed.

(** The test [nameInputValue && nameInputValue.trim() !== ''] fails
    exactly on blank input. *)
Lemma save_test s :
  negb (String.eqb s "") && negb (String.eqb (trim s) "") = negb (blank s).
Proof.
  destruct (blank s) eqn:Hb.
  - apply trim_empty in Hb. rewrite Hb. simpl. apply andb_false_r.
  - destruct (String.eqb_spec (trim s) "") as [Ht|_].
    + apply trim_empty in Ht. congruence.
    + destruct (String.eqb_spec s "") as [->|_]; [ discriminate | reflexivity ].
Qed.

Lemma modal_hide_names clock p :
  submittedNames (modal_hide clock p) = submittedNames p.
Proof.
  unfold modal_hide, updateComponentStatus. destruct (modal p); reflexivity.
Qed.

(** C7. Saving a name that is empty or all white space changes nothing in
    the view: the submitted names, the status log and its array, the
    input, the sort setting and the modal are as before.  Only the
    notification is shown, where the toast API exists.  Any other input is
    appended to the submitted names. *)
Theorem blank_name_rejected (clock : Clock) (p : Page) :
  (blank (nameInputValue p) = true ->
     submittedNames (handleSave clock p) = submittedNames p /\
     componentStatusData (handleSave clock p) = componentStatusData p /\
     heap (handleSave clock p) = heap p /\
     modal (handleSave clock p) = modal p /\
     nameInputValue (handleSave clock p) = nameInputValue p /\
     sortConfig (handleSave clock p) = sortConfig p /\
     (showBanner (handleSave clock p), toastChecked (handleSave clock p),
      showSpinner (handleSave clock p), buttonLoading (handleSave clock p),
      toast_api (handleSave clock p)) =
       (showBanner p, toastChecked p, showSpinner p, buttonLoading p, toast_api p) /\
     toasts (handleSave clock p) =
       (toasts p ++
          if toast_api p
          then [{| message := "Please enter a name before saving";
                   duration := 2000; tone := Some "critical" |}]
          else [])%list) /\
  (blank (nameInputValue p) = false ->
     submittedNames (handleSave clock p) =
       (submittedNames p ++
          [{| SubmittedName.name := trim (nameInputValue p);
              SubmittedName.time := localeTime clock |}])%list).
Proof.
  unfold handleSave. rewrite save_test. split; intros Hb; rewrite Hb; simpl.
  - unfold toast_show. destruct (toast_api p) eqn:Hapi; simpl.
    + repeat split.
    + rewrite app_nil_r. repeat split; congruence.
  - rewrite modal_hide_names. reflexivity.
Qed.

Lemma blank_name_rejected_witness :
  let p := handleNameChange "  	 " morning in
  submittedNames (handleSave {| localeTime := "9:05:00 AM"; now := 1700000300000 |} p) = [] /\
  modal (handleSave {| localeTime := "9:05:00 AM"; now := 1700000300000 |} p) = Some false.
Proof.
  intros p.
  destruct (proj1 (blank_name_rejected
                     {| localeTime := "9:05:00 AM"; now := 1700000300000 |} p) eq_refl)
    as (Hnames & _ & _ & Hmodal & _).
  split; [ exact Hnames | exact Hmodal ].
Defined.

(** *** The sorted view *)

(** [a] may stand before [b]: the comparison function does not ask for
    the opposite. *)
Definition before {A} (compareFn : A -> A -> Z) (a b : A) : Prop := compareFn a b <= 0.


Section StableSort.

Context {A : Type} (compareFn : A -> A -> Z).

Lemma insert_by_perm x l : Permutation (insert_by compareFn x l) (x :: l).
Proof.
  induction l as [|y l IH]; simpl; [ reflexivity | ].
  destruct (0 <? compareFn x y); [ | reflexivity ].
  rewrite IH. apply perm_swap.
Qed.

Lemma sort_by_perm l : Permutation (sort_by compareFn l) l.
Proof.
  induction l as [|x l IH]; simpl; [ reflexivity | ].
  rewrite insert_by_perm, IH. reflexivity.
Qed.

(** The comparison function is consistent. *)
Hypothesis total : forall a b, 0 < compareFn a b -> compareFn b a <= 0.
Hypothesis trans :
  forall a b c, compareFn a b <= 0 -> compareFn b c <= 0 -> compareFn a c <= 0.
Hypothesis ties :
  forall x a b, compareFn x a = 0 -> compareFn x b = 0 -> compareFn a b <= 0.

Lemma insert_by_sorted x l :
  StronglySorted (before compareFn) l ->
  StronglySorted (before compareFn) (insert_by compareFn x l).
Proof.
  induction 1 as [|y l Hsorted IH Hall]; simpl.
  - constructor; constructor.
  - destruct (0 <? compareFn x y) eqn:Hxy.
    + apply Z.ltb_lt in Hxy. constructor; [ exact IH | ].
      rewrite (insert_by_perm x l). constructor; [ apply total, Hxy | exact Hall ].
    + apply Z.ltb_ge in Hxy. constructor; [ constructor; assumption | ].
      constructor; [ exact Hxy | ].
      eapply Forall_impl; [ exact Hall | ]. intros z Hz. exact (trans x y z Hxy Hz).
Qed.

Lemma sort_by_sorted l : StronglySorted (before compareFn) (sort_by compareFn l).
Proof.
  induction l as [|x l IH]; simpl; [ constructor | ].
  apply insert_by_sorted, IH.
Qed.



End StableSort.


Lemma string_lt_trans a b c :
  String.compare a b = Lt -> String.compare b c = Lt -> String.compare a c = Lt.
Proof.
  revert b c. induction a as [|x a IH]; intros [|y b] [|z c]; simpl; try congruence.
  unfold Ascii.compare.
  destruct (N.compare_spec (N_of_ascii x) (N_of_ascii y)),
           (N.compare_spec (N_of_ascii y) (N_of_ascii z)),
           (N.compare_spec (N_of_ascii x) (N_of_ascii z));
    try congruence; try lia; eauto.
Qed.

Lemma string_le_trans a b c :
  String.compare a b <> Gt -> String.compare b c <> Gt -> String.compare a c <> Gt.
Proof.
  intros Hab Hbc Hac.
  assert (Hca : String.compare c a = Lt).
  { rewrite String.compare_antisym, Hac. reflexivity. }
  destruct (String.compare a b) eqn:Heq; [ | | congruence ].
  - apply String.compare_eq_iff in Heq. subst b. congruence.
  - pose proof (string_lt_trans c a b Hca Heq) as Hcb.
    rewrite String.compare_antisym, Hcb in Hbc. apply Hbc. reflexivity.
Qed.

(** The comparison of two column values in a direction. *)
Definition order_of (d : Direction) (x y : string) : Z :=
  if String.ltb x y then (if is_asc d then -1 else 1)
  else if String.ltb y x then (if is_asc d then 1 else -1)
  else 0.

Lemma order_of_compare d x y :
  order_of d x y =
    match String.compare x y with
    | Lt => if is_asc d then -1 else 1
    | Eq => 0
    | Gt => if is_asc d then 1 else -1
    end.
Proof.
  unfold order_of, String.ltb. rewrite (String.compare_antisym y x).
  destruct (String.compare x y); reflexivity.
Qed.

Lemma order_of_total d x y : 0 < order_of d x y -> order_of d y x <= 0.
Proof.
  rewrite !order_of_compare, (String.compare_antisym y x).
  destruct (String.compare x y), d; simpl; lia.
Qed.

Lemma order_of_trans d x y z :
  order_of d x y <= 0 -> order_of d y z <= 0 -> order_of d x z <= 0.
Proof.
  rewrite !order_of_compare. destruct d; simpl.
  - intros Hxy Hyz.
    assert (String.compare x z <> Gt).
    { apply (string_le_trans x y z).
      - destruct (String.compare x y); [ discriminate | discriminate | lia ].
      - destruct (String.compare y z); [ discriminate | discriminate | lia ]. }
    destruct (String.compare x z); [ lia | lia | congruence ].
  - intros Hxy Hyz.
    assert (String.compare z x <> Gt).
    { apply (string_le_trans z y x).
      - rewrite String.compare_antisym.
        destruct (String.compare y z); simpl; [ discriminate | lia | discriminate ].
      - rewrite String.compare_antisym.
        destruct (String.compare x y); simpl; [ discriminate | lia | discriminate ]. }
    rewrite String.compare_antisym.
    destruct (String.compare z x); simpl; [ lia | lia | congruence ].
Qed.


(** A key names a column of every entry or of none. *)
Lemma entry_get_cases k :
  (forall item, entry_get item k = None) \/
  (exists column : StatusEntry.t -> string, forall item, entry_get item k = Some (column item)).
Proof.
  unfold entry_get.
  destruct (String.eqb k "id"); [ right; eexists; intros; reflexivity | ].
  destruct (String.eqb k "name"); [ right; eexists; intros; reflexivity | ].
  destruct (String.eqb k "status"); [ right; eexists; intros; reflexivity | ].
  destruct (String.eqb k "time"); [ right; eexists; intros; reflexivity | ].
  left. reflexivity.
Qed.

Lemma compareEntries_cases config :
  (forall a b, compareEntries config a b = 0) \/
  (exists column : StatusEntry.t -> string,
      forall a b,
        compareEntries config a b =
          order_of (SortConfig.direction config) (column a) (column b)).
Proof.
  unfold compareEntries. destruct (SortConfig.key config) as [k|]; [ | left; reflexivity ].
  destruct (entry_get_cases k) as [Hnone|[column Hsome]].
  - left. intros a b. rewrite !Hnone. reflexivity.
  - right. exists column. intros a b. rewrite !Hsome. reflexivity.
Qed.

Lemma compareEntries_total config a b :
  0 < compareEntries config a b -> compareEntries config b a <= 0.
Proof.
  destruct (compareEntries_cases config) as [H|[column H]]; rewrite !H.
  - lia.
  - apply order_of_total.
Qed.

Lemma compareEntries_trans config a b c :
  compareEntries config a b <= 0 -> compareEntries config b c <= 0 ->
  compareEntries config a c <= 0.
Proof.
  destruct (compareEntries_cases config) as [H|[column H]]; rewrite !H.
  - lia.
  - apply order_of_trans.
Qed.





Lemma StronglySorted_weaken {A} (R S : A -> A -> Prop) l :
  (forall a b, R a b -> S a b) -> StronglySorted R l -> StronglySorted S l.
Proof.
  intros HRS. induction 1 as [|x l Hsorted IH Hall]; constructor; [ exact IH | ].
  eapply Forall_impl; [ exact Hall | ]. intros y. apply HRS.
Qed.



(** The array the table renders. *)
Definition view_of (p : Page) : list StatusEntry.t :=
  read (snd (sortedComponentStatusData p)) (fst (sortedComponentStatusData p)).

(** Without a sort column the view is the status array itself; with one it
    is a new array, and the heap differs at that new location only. *)
Lemma rendered_array_cases p :
  let data := read (heap p) (componentStatusData p) in
  (key_set (sortConfig p) = false /\
   sortedComponentStatusData p = (componentStatusData p, heap p)) \/
  (key_set (sortConfig p) = true /\
   exists copy,
     heap p !! copy = None /\
     sortedComponentStatusData p =
       (copy, <[copy := sort_by (compareEntries (sortConfig p)) data]>
                (<[copy := data]> (heap p)))).
Proof.
  intros data. unfold sortedComponentStatusData.
  destruct (key_set (sortConfig p)); simpl; [ right | left; auto ].
  split; [ reflexivity | ]. exists (fresh (dom (heap p))). split.
  - apply not_elem_of_dom, is_fresh.
  - unfold array_sort, read. rewrite lookup_insert_eq. reflexivity.
Qed.


(** The gallery a little later: the toast shown, a name submitted, and the
    table sorted by status, descending. *)
Definition afternoon : Page :=
  let clock := {| localeTime := "2:30:00 PM"; now := 1700020000000 |} in
  clicks 2 "status"
    (handleSave clock
       (handleNameChange " Ada "
          (updateComponentStatus clock "toast" "Active" morning))).

Example afternoon_view :
  List.map (fun item => (StatusEntry.name item, StatusEntry.status item)) (view_of afternoon) =
    [("Submitted Name: Ada", "Submitted");
     ("Banner Notification", "Inactive");
     ("Name Form Modal", "Inactive");
     ("Toast Notification", "Active")] /\
  List.map StatusEntry.name (read (heap afternoon) (componentStatusData afternoon)) =
    ["Banner Notification"; "Toast Notification"; "Name Form Modal";
     "Submitted Name: Ada"].
Proof. split; vm_compute; reflexivity. Qed.


End GalleryFacts.

(** * Further properties *)

(** ** The route and the driver: what is called, and what comes back *)

Module RouteProtocol.

Import DbService D1Example DbServiceFacts.

(** The calls of one run of the loader, in order. *)
Definition loader_calls : list DriverCall :=
  [CallExec D1.sql_create;
   CallPrepare D1.sql_select_value; CallBind [SqlText "test_checkbox"]; CallFirst;
   CallPrepare D1.sql_select_all; CallAll].

(** The calls of one run of the action that stores [checked] at [now]. *)
Definition action_calls (checked : bool) (now : Z) : list DriverCall :=
  [CallPrepare D1.sql_upsert;
   CallBind [SqlText "test_checkbox"; SqlText (if checked then "true" else "false");
             SqlInt now];
   CallRun;
   CallPrepare D1.sql_select_all; CallAll].

(** The payload of a failed action. *)
Definition failure (message : string) : ActionData.t :=
  {| ActionData.success := false;
     ActionData.isChecked := None;
     ActionData.allSettings := None;
     ActionData.error := Some message |}.

(** The payload of a loader that could not read. *)
Definition defaults (error : option string) : LoaderData.t :=
  {| LoaderData.isChecked := JsBool false;
     LoaderData.settingsTableName := "example_table";
     LoaderData.dbAvailable := false;
     LoaderData.allSettings := [];
     LoaderData.error := error |}.

Ltac split_snoc :=
  match goal with
  | |- ?l = (?p ++ [_])%list =>
      let p' := eval simpl in (removelast l) in
      unify p p'; reflexivity
  end.

Ltac calls_made :=
  split; [ rewrite <- ?app_assoc; simpl; reflexivity | ];
  split; [ first [ apply prefix_of_refl_calls
                 | eexists; reflexivity ] | ].

Ltac settle_run :=
  first
    [ solve [ left; repeat split; repeat constructor; eauto ]
    | solve [ right; do 3 eexists; split; [ split_snoc | ];
              repeat split; repeat constructor;
              rewrite <- ?app_assoc; reflexivity ] ].

Section AnyDriver.

Context {DS Stmt : Type}.

Lemma action_with_handle formData (context : option (Context DS Stmt)) now w handle :
  context_DB context = Some handle ->
  field_is formData "action" "updateSettings" = true ->
  let checked := field_is formData "isChecked" "true" in
  exists written w' events,
    action formData context now w = (Return written, w') /\
    db w' = Some handle /\
    driver_calls w' = (driver_calls w ++ events)%list /\
    List.map ev_call events `prefix_of` action_calls checked now /\
    ((all_passed events /\
      List.map ev_call events = action_calls checked now /\
      ActionData.success written = true /\
      ActionData.isChecked written = Some checked /\
      is_Some (ActionData.allSettings written) /\
      ActionData.error written = None /\
      console w' = console w) \/
     (exists error passed call,
         events = (passed ++ [{| ev_call := call; ev_thrown := Some error |}])%list /\
         all_passed passed /\
         written = failure (error_text error) /\
         console w' =
           (console w ++ [LogError "Database query error:" error;
                          LogError "Database error saving setting:" error])%list)).
Proof.
  intros Hctx Haction checked. subst checked.
  unfold action, initFromContext. rewrite Haction, Hctx.
  generalize (field_is formData "isChecked" "true"). intros checked.
  unfold executeQuery, getAllRows, setDb. run_driver.
  all: do 3 eexists; split; [ reflexivity | ]; split; [ reflexivity | ]; simpl.
  all: calls_made.
  all: settle_run.
Qed.

Lemma loader_with_handle (context : option (Context DS Stmt)) w handle :
  context_DB context = Some handle ->
  exists read w' events,
    loader context w = (Return read, w') /\
    db w' = Some handle /\
    driver_calls w' = (driver_calls w ++ events)%list /\
    List.map ev_call events `prefix_of` loader_calls /\
    ((all_passed events /\
      List.map ev_call events = loader_calls /\
      LoaderData.dbAvailable read = true /\
      LoaderData.settingsTableName read = "example_table" /\
      LoaderData.error read = None /\
      console w' = console w) \/
     (exists error passed call,
         events = (passed ++ [{| ev_call := call; ev_thrown := Some error |}])%list /\
         all_passed passed /\
         read = defaults (Some (error_text error)) /\
         console w' =
           (console w ++ [LogError "Database query error:" error;
                          LogError "Database error:" error])%list)).
Proof.
  intros Hctx. unfold loader, initFromContext. rewrite Hctx.
  unfold executeQuery, getFirstRow, getAllRows, setDb. run_driver.
  all: do 3 eexists; split; [ reflexivity | ]; split; [ reflexivity | ]; simpl.
  all: calls_made.
  all: settle_run.
Qed.

Lemma not_all_passed passed call error :
  ~ all_passed (passed ++ [{| ev_call := call; ev_thrown := Some error |}]).
Proof.
  unfold all_passed. rewrite Forall_app, Forall_singleton. simpl.
  intros [_ H]. discriminate H.
Qed.

(** The two shapes of what the action returns. *)
Lemma action_answer_shapes formData (context : option (Context DS Stmt)) now w
    written w' :
  action formData context now w = (Return written, w') ->
  ActionData.success written = true \/ exists message, written = failure message.
Proof.
  intros Hrun.
  destruct (field_is formData "action" "updateSettings") eqn:Haction.
  - destruct (context_DB context) as [handle|] eqn:Hctx.
    + destruct (action_with_handle formData context now w handle Hctx Haction)
        as (written0 & w0 & events & Hrun0 & _ & _ & _ & Hcases).
      rewrite Hrun in Hrun0. injection Hrun0 as <- <-.
      destruct Hcases as [(_ & _ & Hs & _)|(e & _ & _ & _ & _ & Hw & _)];
        [ left; exact Hs | right; eexists; exact Hw ].
    + unfold action, initFromContext in Hrun. rewrite Haction, Hctx in Hrun.
      injection Hrun as <- _. right. eexists. reflexivity.
  - unfold action in Hrun. rewrite Haction in Hrun.
    injection Hrun as <- _. right. eexists. reflexivity.
Qed.

(** X1. Whatever the form, the context and the driver, the action does
    not throw: it answers either with a success payload, which carries the
    flag and the rows and no error, or with a failure payload, which
    carries a message and nothing else.  Success needs a binding in the
    context and the action [updateSettings]. *)
Theorem action_always_answers formData (context : option (Context DS Stmt)) now w :
  exists written w',
    action formData context now w = (Return written, w') /\
    ((ActionData.success written = true /\
      ActionData.error written = None /\
      ActionData.isChecked written = Some (field_is formData "isChecked" "true") /\
      is_Some (ActionData.allSettings written) /\
      is_Some (context_DB context) /\
      field_is formData "action" "updateSettings" = true) \/
     (exists message, written = failure message)).
Proof.
  destruct (field_is formData "action" "updateSettings") eqn:Haction.
  - destruct (context_DB context) as [handle|] eqn:Hctx.
    + destruct (action_with_handle formData context now w handle Hctx Haction)
        as (written & w' & events & Hrun & _ & _ & _ & Hcases).
      exists written, w'. split; [ exact Hrun | ].
      destruct Hcases as [(_ & _ & Hs & Hc & Hrows & He & _)|(e & _ & _ & _ & _ & Hw & _)].
      * left. repeat split; auto.
      * right. exists (error_text e). exact Hw.
    + do 2 eexists. split.
      * unfold action, initFromContext. rewrite Haction, Hctx. reflexivity.
      * right. eexists. reflexivity.
  - do 2 eexists. split.
    + unfold action. rewrite Haction. reflexivity.
    + right. eexists. reflexivity.
Qed.

(** X2. With a binding, the action calls the driver at most five times,
    in this order: prepare the upsert, bind the key, the text "true" or
    "false" and the time, run; prepare the full select, fetch all.  It
    stops at the first call that throws.  It reports success exactly when
    all five calls were made and none threw; otherwise its error is the
    text of the value thrown, logged by the accessor and by the action.
    It never executes a script, so it never creates the table. *)
Theorem action_protocol formData (context : option (Context DS Stmt)) now w handle :
  context_DB context = Some handle ->
  field_is formData "action" "updateSettings" = true ->
  exists written w' events,
    action formData context now w = (Return written, w') /\
    driver_calls w' = (driver_calls w ++ events)%list /\
    List.map ev_call events `prefix_of`
      action_calls (field_is formData "isChecked" "true") now /\
    (ActionData.success written = true <->
       all_passed events /\
       List.map ev_call events = action_calls (field_is formData "isChecked" "true") now) /\
    (ActionData.success written = false ->
       exists error passed call,
         events = (passed ++ [{| ev_call := call; ev_thrown := Some error |}])%list /\
         all_passed passed /\
         ActionData.error written = Some (error_text error) /\
         console w' =
           (console w ++ [LogError "Database query error:" error;
                          LogError "Database error saving setting:" error])%list) /\
    (forall ev query, In ev events -> ev_call ev <> CallExec query).
Proof.
  intros Hctx Haction.
  destruct (action_with_handle formData context now w handle Hctx Haction)
    as (written & w' & events & Hrun & _ & Hcalls & Hprefix & Hcases).
  exists written, w', events.
  split; [ exact Hrun | ]. split; [ exact Hcalls | ]. split; [ exact Hprefix | ].
  split; [ | split ].
  - destruct Hcases as [(Hp & Hm & Hs & _)|(e & passed & call & -> & _ & -> & _)].
    + split; [ intros _; split; assumption | intros _; exact Hs ].
    + split; [ discriminate | ].
      intros [Hpassed _]. destruct (not_all_passed _ _ _ Hpassed).
  - intros Hfailed.
    destruct Hcases as [(_ & _ & Hs & _)|(e & passed & call & He & Hp & -> & Hc)];
      [ congruence | ].
    exists e, passed, call. repeat split; assumption.
  - intros ev query Hin Hexec.
    destruct Hprefix as [rest Hrest].
    assert (Hmem : In (CallExec query) (action_calls (field_is formData "isChecked" "true") now)).
    { rewrite Hrest. apply in_or_app. left. rewrite <- Hexec. apply in_map. exact Hin. }
    simpl in Hmem. intuition discriminate.
Qed.

(** X3. Whatever the context and the driver, the loader does not throw.
    Its payload always names the table; when it reports the database
    unavailable the payload is the default one, with [isChecked] false and
    no rows; it reports the database available only with a binding in the
    context, and then without an error text. *)
Theorem loader_always_answers (context : option (Context DS Stmt)) w :
  exists read w',
    loader context w = (Return read, w') /\
    LoaderData.settingsTableName read = "example_table" /\
    (LoaderData.dbAvailable read = false ->
       LoaderData.isChecked read = JsBool false /\ LoaderData.allSettings read = []) /\
    (LoaderData.dbAvailable read = true ->
       LoaderData.error read = None /\ is_Some (context_DB context)).
Proof.
  destruct (context_DB context) as [handle|] eqn:Hctx.
  - destruct (loader_with_handle context w handle Hctx)
      as (read & w' & events & Hrun & _ & _ & _ & Hcases).
    exists read, w'. split; [ exact Hrun | ].
    destruct Hcases as [(_ & _ & Ha & Hn & He & _)|(e & _ & _ & _ & _ & -> & _)].
    + repeat split; try congruence. eexists; reflexivity.
    + repeat split; discriminate.
  - do 2 eexists. split.
    + unfold loader, initFromContext. rewrite Hctx. reflexivity.
    + repeat split; discriminate.
Qed.

(** X4. With a binding, the loader calls the driver at most six times, in
    this order: execute the create-if-absent script; prepare the select by
    key, bind "test_checkbox", fetch the first row; prepare the full
    select, fetch all.  It stops at the first call that throws.  It
    reports the database available exactly when all six calls were made
    and none threw; otherwise its error is the text of the value thrown.
    It never runs a statement, so it writes no row. *)
Theorem loader_protocol (context : option (Context DS Stmt)) w handle :
  context_DB context = Some handle ->
  exists read w' events,
    loader context w = (Return read, w') /\
    driver_calls w' = (driver_calls w ++ events)%list /\
    List.map ev_call events `prefix_of` loader_calls /\
    (LoaderData.dbAvailable read = true <->
       all_passed events /\ List.map ev_call events = loader_calls) /\
    (LoaderData.dbAvailable read = false ->
       exists error passed call,
         events = (passed ++ [{| ev_call := call; ev_thrown := Some error |}])%list /\
         all_passed passed /\
         LoaderData.error read = Some (error_text error) /\
         console w' =
           (console w ++ [LogError "Database query error:" error;
                          LogError "Database error:" error])%list) /\
    (forall ev, In ev events -> ev_call ev <> CallRun).
Proof.
  intros Hctx.
  destruct (loader_with_handle context w handle Hctx)
    as (read & w' & events & Hrun & _ & Hcalls & Hprefix & Hcases).
  exists read, w', events.
  split; [ exact Hrun | ]. split; [ exact Hcalls | ]. split; [ exact Hprefix | ].
  split; [ | split ].
  - destruct Hcases as [(Hp & Hm & Hs & _)|(e & passed & call & -> & _ & -> & _)].
    + split; [ intros _; split; assumption | intros _; exact Hs ].
    + split; [ discriminate | ].
      intros [Hpassed _]. destruct (not_all_passed _ _ _ Hpassed).
  - intros Hfailed.
    destruct Hcases as [(_ & _ & Hs & _)|(e & passed & call & He & Hp & -> & Hc)];
      [ congruence | ].
    exists e, passed, call. repeat split; assumption.
  - intros ev Hin Hexec.
    destruct Hprefix as [rest Hrest].
    assert (Hmem : In CallRun loader_calls).
    { rewrite Hrest. apply in_or_app. left. rewrite <- Hexec. apply in_map. exact Hin. }
    simpl in Hmem. intuition discriminate.
Qed.

(** X5. A form whose [action] entry is anything but the string
    "updateSettings" (missing, a file, another text) is answered with
    "Unknown action" and leaves the world as it is: no handle is set and
    no driver is called, binding or not. *)
Theorem unknown_action_inert formData (context : option (Context DS Stmt)) now w :
  formData_get formData "action" <> Some (FormString "updateSettings") ->
  action formData context now w = (Return (failure "Unknown action"), w).
Proof.
  intros Hother.
  assert (Haction : field_is formData "action" "updateSettings" = false).
  { unfold field_is. destruct (formData_get formData "action") as [[s|f]|]; try reflexivity.
    apply String.eqb_neq. congruence. }
  unfold action. rewrite Haction. reflexivity.
Qed.

(** X6. The service is one object for all requests and keeps the last
    binding it was given.  A context with a binding replaces the handle; a
    context without one makes [initFromContext] answer false but leaves an
    earlier handle in place, and an accessor called afterwards still runs
    on that handle instead of failing with "Database not available". *)
Theorem singleton_keeps_binding (context : option (Context DS Stmt)) w :
  (forall handle,
      context_DB context = Some handle ->
      fst (initFromContext context w) = Return true /\
      db (snd (initFromContext context w)) = Some handle) /\
  (context_DB context = None ->
     initFromContext context w = (Return false, w)) /\
  (forall handle query,
      context_DB context = None ->
      db w = Some handle ->
      db (snd (initFromContext context w)) = Some handle /\
      driver_calls (snd (executeQuery query [] (snd (initFromContext context w)))) =
        (driver_calls w ++
           [{| ev_call := CallExec query;
               ev_thrown :=
                 match fst (d1_exec handle query (store w)) with
                 | Return _ => None
                 | Throw e => Some e
                 end |}])%list).
Proof.
  split; [ | split ].
  - intros handle Hctx. unfold initFromContext. rewrite Hctx. split; reflexivity.
  - intros Hctx. unfold initFromContext. rewrite Hctx. reflexivity.
  - intros handle query Hctx Hdb.
    unfold initFromContext. rewrite Hctx. simpl. split; [ exact Hdb | ].
    unfold executeQuery, bind, get_db. rewrite Hdb. simpl.
    unfold try_catch, invoke, bind, ret, console_error, log, throw.
    destruct (d1_exec handle query (store w)) as [[r|e] s]; reflexivity.
Qed.

End AnyDriver.

Lemma action_protocol_witness :
  exists written w' events,
    action (D1.form_of true) D1.with_binding 1700000000000 SettingsFacts.ready =
      (Return written, w') /\
    List.map ev_call events `prefix_of` action_calls true 1700000000000.
Proof.
  destruct (action_protocol (D1.form_of true) D1.with_binding 1700000000000
              SettingsFacts.ready D1.binding eq_refl eq_refl)
    as (written & w' & events & Hrun & _ & Hprefix & _).
  exists written, w', events. split; [ exact Hrun | exact Hprefix ].
Defined.

Lemma loader_always_answers_witness :
  exists read w',
    loader D1.without_binding (D1.fresh_worker []) = (Return read, w') /\
    LoaderData.settingsTableName read = "example_table".
Proof.
  destruct (loader_always_answers D1.without_binding (D1.fresh_worker []))
    as (read & w' & Hrun & Hname & _).
  exists read, w'. split; [ exact Hrun | exact Hname ].
Defined.

Lemma loader_protocol_witness :
  exists read w' events,
    loader D1.with_binding offline = (Return read, w') /\
    List.map ev_call events `prefix_of` loader_calls.
Proof.
  destruct (loader_protocol D1.with_binding offline D1.binding eq_refl)
    as (read & w' & events & Hrun & _ & Hprefix & _).
  exists read, w', events. split; [ exact Hrun | exact Hprefix ].
Defined.

Lemma unknown_action_inert_witness :
  action [("action", FormString "deleteSettings")] D1.with_binding 1700000000000
    SettingsFacts.ready =
  (Return (failure "Unknown action"), SettingsFacts.ready).
Proof.
  apply (unknown_action_inert [("action", FormString "deleteSettings")] D1.with_binding
           1700000000000 SettingsFacts.ready).
  discriminate.
Defined.

Lemma singleton_keeps_binding_witness :
  db (snd (initFromContext D1.without_binding offline)) = Some D1.binding /\
  driver_calls
    (snd (executeQuery "SELECT 1" [] (snd (initFromContext D1.without_binding offline)))) =
    (driver_calls offline ++
       [{| ev_call := CallExec "SELECT 1";
           ev_thrown :=
             match fst (d1_exec D1.binding "SELECT 1" (store offline)) with
             | Return _ => None
             | Throw e => Some e
             end |}])%list.
Proof.
  apply (proj2 (proj2 (singleton_keeps_binding D1.without_binding offline))
           D1.binding "SELECT 1"); reflexivity.
Defined.

End RouteProtocol.

(** ** The route on the modelled database: reads, writes and their order *)

Module SettingsOnModel.

Import DbService D1Example D1 SettingsFacts.

Lemma loader_table context w :
  context_DB context = Some binding ->
  match loader context w with
  | (Return read, w1) =>
      (LoaderData.dbAvailable read = true -> example_table (store w1) <> None) /\
      (LoaderData.dbAvailable read = true -> LoaderData.error read = None)
  | (Throw _, _) => False
  end.
Proof.
  intros Hctx. destruct w as [c h [tbl fl] calls].
  unfold loader, initFromContext. rewrite Hctx.
  split_store fl tbl; settle.
Qed.

Lemma action_response_rows formData context now w :
  context_DB context = Some binding ->
  field_is formData "action" "updateSettings" = true ->
  match action formData context now w with
  | (Return written, w1) =>
      ActionData.success written = true ->
      ActionData.allSettings written =
        Some (List.map full_row (default [] (example_table (store w1))))
  | (Throw _, _) => False
  end.
Proof.
  intros Hctx Haction. destruct w as [c h [tbl fl] calls].
  unfold action, initFromContext. rewrite Haction, Hctx.
  generalize (field_is formData "isChecked" "true"). intros checked.
  split_store fl tbl; settle.
Qed.

Lemma filter_upsert_other new rows k :
  k <> key new ->
  List.filter (has_key k) (upsert new rows) = List.filter (has_key k) rows.
Proof.
  intros Hne. unfold upsert. rewrite List.filter_app. simpl.
  assert (Hnew : has_key k new = false).
  { unfold has_key. apply String.eqb_neq. congruence. }
  rewrite Hnew, app_nil_r.
  induction rows as [|r rows IH]; simpl; [ reflexivity | ].
  destruct (has_key (key new) r) eqn:Hr; simpl.
  - assert (Hk : has_key k r = false).
    { apply has_key_eq in Hr. unfold has_key. apply String.eqb_neq. congruence. }
    rewrite Hk. exact IH.
  - destruct (has_key k r); [ f_equal | ]; exact IH.
Qed.

Lemma stored_flag_rows rows :
  stored_flag rows =
    match List.filter (has_key "test_checkbox") rows with
    | [] => JsNull
    | r :: _ => JsBool (String.eqb (value r) "true")
    end.
Proof.
  unfold stored_flag. induction rows as [|r rows IH]; simpl; [ reflexivity | ].
  destruct (has_key "test_checkbox" r); [ reflexivity | exact IH ].
Qed.

(** X7. On the modelled database the loader never changes a row: a table
    that exists is left as it is, whether the load succeeds or not, and a
    load that reports the database available leaves a table behind, empty
    if there was none.  Two loads in a row that both succeed return the
    same flag and the same rows. *)
Theorem loader_keeps_rows context context' w read w1 :
  context_DB context = Some binding ->
  context_DB context' = Some binding ->
  loader context w = (Return read, w1) ->
  (forall rows, example_table (store w) = Some rows ->
                example_table (store w1) = Some rows) /\
  (LoaderData.dbAvailable read = true ->
     example_table (store w1) = Some (default [] (example_table (store w))) /\
     forall read' w2,
       loader context' w1 = (Return read', w2) ->
       LoaderData.dbAvailable read' = true ->
       LoaderData.isChecked read' = LoaderData.isChecked read /\
       LoaderData.allSettings read' = LoaderData.allSettings read).
Proof.
  intros Hctx Hctx' Hrun.
  pose proof (loader_on_binding context w Hctx) as H. simpl in H.
  pose proof (loader_table context w Hctx) as Ht.
  rewrite Hrun in H, Ht. destruct H as (Hread & Hstore & _). destruct Ht as [Hsome _].
  assert (Hsame : LoaderData.dbAvailable read = true ->
                  example_table (store w1) = Some (default [] (example_table (store w)))).
  { intros Ha. destruct Hstore as [Heq|Heq]; [ | exact Heq ].
    specialize (Hsome Ha). rewrite Heq in *.
    destruct (example_table (store w)); [ reflexivity | congruence ]. }
  split.
  - intros rows Hrows. destruct Hstore as [Heq|Heq]; rewrite Heq, Hrows; reflexivity.
  - intros Ha. split; [ exact (Hsame Ha) | ].
    intros read' w2 Hrun' Ha'.
    pose proof (loader_on_binding context' w1 Hctx') as H'. simpl in H'.
    rewrite Hrun' in H'. destruct H' as (Hread' & _ & _).
    destruct (Hread Ha) as [-> ->]. destruct (Hread' Ha') as [-> ->].
    rewrite (Hsame Ha). split; reflexivity.
Qed.

Lemma loader_keeps_rows_witness :
  exists read w1,
    loader with_binding (fresh_worker []) = (Return read, w1) /\
    example_table (store w1) = Some [].
Proof.
  destruct (loader with_binding (fresh_worker [])) as [[read|e] w1] eqn:Hrun;
    [ | vm_compute in Hrun; discriminate ].
  exists read, w1. split; [ reflexivity | ].
  apply (loader_keeps_rows with_binding with_binding (fresh_worker []) read w1
           eq_refl eq_refl Hrun).
  vm_compute in Hrun. injection Hrun as <- _. reflexivity.
Defined.

(** X8. What the loader reports for the checkbox when the database is
    available: [null], not false, when no row is stored under
    "test_checkbox"; true when the stored text is exactly "true"; false for
    any other stored text. *)
Theorem loader_flag context w read w1 :
  context_DB context = Some binding ->
  loader context w = (Return read, w1) ->
  LoaderData.dbAvailable read = true ->
  (LoaderData.isChecked read = JsNull <-> rows_for "test_checkbox" (store w) = []) /\
  (forall r rest,
      rows_for "test_checkbox" (store w) = r :: rest ->
      LoaderData.isChecked read = JsBool true <-> value r = "true").
Proof.
  intros Hctx Hrun Ha.
  pose proof (loader_on_binding context w Hctx) as H. simpl in H.
  rewrite Hrun in H. destruct H as (Hread & _ & _). destruct (Hread Ha) as [-> _].
  rewrite stored_flag_rows. unfold rows_for.
  destruct (example_table (store w)) as [rows|]; simpl.
  - destruct (List.filter (has_key "test_checkbox") rows) as [|r0 rest0].
    + split; [ tauto | intros r rest; discriminate ].
    + split; [ split; discriminate | ].
      intros r rest [= <- <-]. rewrite <- String.eqb_eq.
      destruct (String.eqb (value r0) "true"); split; congruence.
  - split; [ tauto | intros r rest; discriminate ].
Qed.

Lemma loader_flag_witness :
  exists read w1,
    loader with_binding ready = (Return read, w1) /\
    LoaderData.dbAvailable read = true /\
    LoaderData.isChecked read = JsNull.
Proof.
  destruct (loader with_binding ready) as [[read|e] w1] eqn:Hrun;
    [ | vm_compute in Hrun; discriminate ].
  assert (Ha : LoaderData.dbAvailable read = true).
  { vm_compute in Hrun. injection Hrun as <- _. reflexivity. }
  exists read, w1. repeat split; [ exact Ha | ].
  apply (proj1 (loader_flag with_binding ready read w1 eq_refl Hrun Ha)).
  reflexivity.
Defined.

(** X9. The rows a successful write returns are the rows of the table as
    the write leaves it, the written row among them once; a load right
    after it returns the same rows. *)
Theorem write_response_matches_read formData context context' now w written w1 :
  context_DB context = Some binding ->
  context_DB context' = Some binding ->
  field_is formData "action" "updateSettings" = true ->
  action formData context now w = (Return written, w1) ->
  ActionData.success written = true ->
  exists rows,
    example_table (store w1) = Some rows /\
    ActionData.allSettings written = Some (List.map full_row rows) /\
    List.filter (has_key "test_checkbox") rows =
      [written_row (field_is formData "isChecked" "true") now] /\
    forall read w2,
      loader context' w1 = (Return read, w2) ->
      LoaderData.dbAvailable read = true ->
      ActionData.allSettings written = Some (LoaderData.allSettings read).
Proof.
  intros Hctx Hctx' Haction Hrun Hsuccess.
  pose proof (action_on_binding formData context now w Hctx Haction) as H.
  pose proof (action_response_rows formData context now w Hctx Haction) as Hr.
  simpl in H. rewrite Hrun in H, Hr. destruct H as (H & _ & _).
  destruct (H Hsuccess) as (Htable & Hsome & _). specialize (Hr Hsuccess).
  destruct (example_table (store w)) as [rows|]; [ simpl in Htable | congruence ].
  rewrite Htable in Hr. simpl in Hr.
  eexists. split; [ exact Htable | ]. split; [ exact Hr | ]. split.
  - apply (filter_upsert_same (written_row _ now)).
  - intros read w2 Hread Ha.
    pose proof (loader_on_binding context' w1 Hctx') as H'. simpl in H'.
    rewrite Hread in H'. destruct H' as (H' & _ & _). destruct (H' Ha) as [_ ->].
    rewrite Htable. exact Hr.
Qed.

Lemma write_response_matches_read_witness :
  exists written w1 rows,
    action (form_of true) with_binding 1700000000000 ready = (Return written, w1) /\
    example_table (store w1) = Some rows /\
    ActionData.allSettings written = Some (List.map full_row rows).
Proof.
  destruct (action (form_of true) with_binding 1700000000000 ready)
    as [[written|e] w1] eqn:Hrun; [ | vm_compute in Hrun; discriminate ].
  assert (Hs : ActionData.success written = true).
  { vm_compute in Hrun. injection Hrun as <- _. reflexivity. }
  destruct (write_response_matches_read (form_of true) with_binding with_binding
              1700000000000 ready written w1 eq_refl eq_refl eq_refl Hrun Hs)
    as (rows & Htable & Hrows & _).
  exists written, w1, rows. repeat split; assumption.
Defined.

(** X10. The route writes under one key only: whatever request is served,
    the rows stored under any other key stay as they are, and a load
    changes the rows of no key at all. *)
Theorem other_keys_untouched request w k :
  served_by_binding request ->
  (k <> "test_checkbox" \/ exists context, request = Load context) ->
  rows_for k (store (serve request w)) = rows_for k (store w).
Proof.
  intros Hserved Hk. unfold rows_for.
  destruct request as [context|formData context now]; simpl in *.
  - destruct Hserved as [Hctx|Hctx].
    + rewrite (loader_without_binding context w Hctx). reflexivity.
    + pose proof (loader_on_binding context w Hctx) as H. simpl in H.
      destruct (loader context w) as [[read|e] w1]; [ | contradiction ].
      destruct H as (_ & [H|H] & _); simpl; rewrite H; [ reflexivity | ].
      destruct (example_table (store w)); reflexivity.
  - destruct Hk as [Hk|[context' Heq]]; [ | discriminate ].
    destruct (field_is formData "action" "updateSettings") eqn:Haction.
    2:{ rewrite (action_unknown formData context now w Haction). reflexivity. }
    destruct Hserved as [Hctx|Hctx].
    + rewrite (action_without_binding formData context now w Hctx Haction). reflexivity.
    + pose proof (action_on_binding formData context now w Hctx Haction) as H.
      simpl in H.
      destruct (action formData context now w) as [[written|e] w1]; [ | contradiction ].
      destruct H as (_ & [H|H] & _); simpl; rewrite H; [ reflexivity | ].
      destruct (example_table (store w)) as [rows|]; simpl; [ | reflexivity ].
      apply filter_upsert_other. exact Hk.
Qed.

Lemma other_keys_untouched_witness :
  rows_for "theme"
    (store (serve (Submit (form_of true) with_binding 1700000000000) ready)) =
  rows_for "theme" (store ready).
Proof.
  apply (other_keys_untouched (Submit (form_of true) with_binding 1700000000000)
           ready "theme").
  - right. reflexivity.
  - left. discriminate.
Defined.

(** X11. The action does not create the table.  While the table is
    missing every write fails and stores nothing; once a load has reported
    the database available, a write succeeds unless the platform fails one
    of its two executions. *)
Theorem write_needs_table formData context now w written w1 :
  context_DB context = Some binding ->
  field_is formData "action" "updateSettings" = true ->
  action formData context now w = (Return written, w1) ->
  (example_table (store w) = None ->
     ActionData.success written = false /\ example_table (store w1) = None) /\
  (forall context0 w0 read,
      context_DB context0 = Some binding ->
      loader context0 w0 = (Return read, w) ->
      LoaderData.dbAvailable read = true ->
      List.hd None (faults (store w)) = None ->
      List.hd None (List.tl (faults (store w))) = None ->
      ActionData.success written = true).
Proof.
  intros Hctx Haction Hrun.
  pose proof (action_on_binding formData context now w Hctx Haction) as H.
  simpl in H. rewrite Hrun in H. destruct H as (Hs & Hstore & Hok).
  split.
  - intros Hnone. split.
    + destruct (ActionData.success written) eqn:Hw; [ | reflexivity ].
      destruct (Hs eq_refl) as (_ & Hsome & _). contradiction.
    + destruct Hstore as [->| ->]; rewrite Hnone; reflexivity.
  - intros context0 w0 read Hctx0 Hload Ha Hf1 Hf2.
    apply Hok; try assumption.
    pose proof (loader_table context0 w0 Hctx0) as Ht. rewrite Hload in Ht.
    apply Ht, Ha.
Qed.

Lemma write_needs_table_witness :
  exists written w1,
    action (form_of true) with_binding 1700000000000 (fresh_worker []) =
      (Return written, w1) /\
    ActionData.success written = false /\
    example_table (store w1) = None.
Proof.
  destruct (action (form_of true) with_binding 1700000000000 (fresh_worker []))
    as [[written|e] w1] eqn:Hrun; [ | vm_compute in Hrun; discriminate ].
  exists written, w1. split; [ reflexivity | ].
  apply (proj1 (write_needs_table (form_of true) with_binding 1700000000000
                  (fresh_worker []) written w1 eq_refl eq_refl Hrun)).
  reflexivity.
Defined.

End SettingsOnModel.

(** ** The view and the action together *)

Module ViewExtras.

Import DbService D1Example D1 SettingsFacts.

Lemma receive_failure message st :
  saveError (receive (RouteProtocol.failure message) st) = message /\
  tableData (receive (RouteProtocol.failure message) st) = tableData st.
Proof.
  unfold receive, fetcherEffect. simpl.
  destruct (String.eqb_spec message "") as [->|_]; split; reflexivity.
Qed.

(** X12. A toggle carried through to the table on display.  With the
    database available, the view submits a form that the action reads as
    [updateSettings] with the value toggled.  When the action, on the
    modelled database, answers with success, the view then shows the rows
    of the table after the write, with one row for "test_checkbox" holding
    the text of the value toggled, and no error.  When it answers with a
    failure, the view keeps its rows and shows the message.  Either way
    the checkbox shows the value toggled and the fetcher is idle again. *)
Theorem toggle_write_display (checked : bool) st context now w written w1 :
  dbAvailable st = true ->
  context_DB context = Some binding ->
  submitted (handleCheckboxChange checked st) = (submitted st ++ [form_of checked])%list /\
  (action (form_of checked) context now w = (Return written, w1) ->
   let st' := receive written (handleCheckboxChange checked st) in
   checkboxState st' = JsBool checked /\
   fetcher_state st' = Idle /\
   (ActionData.success written = true ->
      saveError st' = "" /\
      exists rows,
        example_table (store w1) = Some rows /\
        tableData st' = List.map full_row rows /\
        List.filter (has_key "test_checkbox") rows =
          [{| key := "test_checkbox"; value := if checked then "true" else "false";
              updated_at := now |}]) /\
   (ActionData.success written = false ->
      tableData st' = tableData st /\
      ActionData.error written = Some (saveError st'))).
Proof.
  intros Hdb Hctx. split.
  { unfold handleCheckboxChange. rewrite Hdb. destruct checked; reflexivity. }
  intros Hrun st'. subst st'.
  assert (Haction : field_is (form_of checked) "action" "updateSettings" = true)
    by reflexivity.
  assert (Hfield : field_is (form_of checked) "isChecked" "true" = checked)
    by (destruct checked; reflexivity).
  split; [ apply toggle_checkbox | ]. split; [ reflexivity | ]. split.
  - intros Hsuccess.
    pose proof (action_on_binding (form_of checked) context now w Hctx Haction) as H.
    pose proof (SettingsOnModel.action_response_rows (form_of checked) context now w
                  Hctx Haction) as Hr.
    simpl in H. rewrite Hrun in H, Hr. destruct H as (H & _ & _).
    destruct (H Hsuccess) as (Htable & Hsome & _). specialize (Hr Hsuccess).
    destruct (example_table (store w)) as [rows|]; [ simpl in Htable | congruence ].
    rewrite Htable in Hr. simpl in Hr. rewrite Hfield in *.
    unfold receive, fetcherEffect. simpl. rewrite Hsuccess, Hr. simpl.
    split; [ reflexivity | ]. eexists. split; [ exact Htable | ].
    split; [ reflexivity | ].
    apply (filter_upsert_same (written_row checked now)).
  - intros Hfailed.
    destruct (RouteProtocol.action_answer_shapes (form_of checked) context now w
                written w1 Hrun) as [Hs|[message ->]]; [ congruence | ].
    destruct (receive_failure message (handleCheckboxChange checked st)) as [-> ->].
    split; [ | reflexivity ].
    unfold handleCheckboxChange. rewrite Hdb. reflexivity.
Qed.

(** A view mounted on a loader payload that reports the database
    available, and the failure the action gives without a binding. *)
Definition mounted_view : ViewState :=
  mount {| LoaderData.isChecked := JsNull;
           LoaderData.settingsTableName := "example_table";
           LoaderData.dbAvailable := true;
           LoaderData.allSettings := [];
           LoaderData.error := None |}.

Lemma toggle_write_display_witness :
  exists written w1,
    action (form_of true) with_binding 1700000000000 ready = (Return written, w1) /\
    checkboxState (receive written (handleCheckboxChange true mounted_view)) =
      JsBool true /\
    fetcher_state (receive written (handleCheckboxChange true mounted_view)) = Idle.
Proof.
  destruct (action (form_of true) with_binding 1700000000000 ready)
    as [[written|e] w1] eqn:Hrun; [ | vm_compute in Hrun; discriminate ].
  exists written, w1. split; [ reflexivity | ].
  destruct (proj2 (toggle_write_display true mounted_view with_binding 1700000000000
                     ready written w1 eq_refl eq_refl) Hrun) as (Hc & Hf & _).
  split; [ exact Hc | exact Hf ].
Defined.



End ViewExtras.

(** ** The gallery as a whole: its elements, its timers, its events *)

Module GalleryEvents.

Import WebComponents.

(** A callback waiting in [setTimeout]: the one of the spinner button
    or the one of the toast checkbox. *)
Inductive Timer : Type :=
  | spinner_timer
  | toast_timer.

(** The delay each was set with, in milliseconds. *)
Definition delay (t : Timer) : Z :=
  match t with
  | spinner_timer => 3000
  | toast_timer => 4000
  end.

(** The page together with the two checkbox elements the effects look up
    ([None]: not in the document; [Some c]: there, with [checked = c]) and
    the timers not yet fired. *)
Record Gallery : Type := {
  page : Page;
  bannerCheckbox : option bool;
  toastCheckbox : option bool;
  timers : list Timer
}.

Definition on_page (f : Page -> Page) (g : Gallery) : Gallery :=
  {| page := f (page g); bannerCheckbox := bannerCheckbox g;
     toastCheckbox := toastCheckbox g; timers := timers g |}.

Definition set_showBanner (shown : bool) (p : Page) : Page :=
  {| showBanner := shown; toastChecked := toastChecked p;
     submittedNames := submittedNames p; nameInputValue := nameInputValue p;
     showSpinner := showSpinner p; buttonLoading := buttonLoading p;
     componentStatusData := componentStatusData p; sortConfig := sortConfig p;
     heap := heap p; modal := modal p; toast_api := toast_api p; toasts := toasts p |}.

Definition set_toastChecked (checked : bool) (p : Page) : Page :=
  {| showBanner := showBanner p; toastChecked := checked;
     submittedNames := submittedNames p; nameInputValue := nameInputValue p;
     showSpinner := showSpinner p; buttonLoading := buttonLoading p;
     componentStatusData := componentStatusData p; sortConfig := sortConfig p;
     heap := heap p; modal := modal p; toast_api := toast_api p; toasts := toasts p |}.

(** [setShowSpinner(on); setButtonLoading(on)]. *)
Definition set_spinner (on : bool) (p : Page) : Page :=
  {| showBanner := showBanner p; toastChecked := toastChecked p;
     submittedNames := submittedNames p; nameInputValue := nameInputValue p;
     showSpinner := on; buttonLoading := on;
     componentStatusData := componentStatusData p; sortConfig := sortConfig p;
     heap := heap p; modal := modal p; toast_api := toast_api p; toasts := toasts p |}.

(** The gallery as mounted. *)
Definition mounted (clock : Clock) (modal_present toast_present : bool)
    (banner_box toast_box : bool) : Gallery :=
  {| page := initial clock modal_present toast_present;
     bannerCheckbox := if banner_box then Some false else None;
     toastCheckbox := if toast_box then Some false else None;
     timers := [] |}.

Definition handleSpinnerClick (g : Gallery) : Gallery :=
  {| page := set_spinner true (page g); bannerCheckbox := bannerCheckbox g;
     toastCheckbox := toastCheckbox g;
     timers := timers g ++ [spinner_timer] |}.

(** The callback of the spinner timer. *)
Definition spinnerTimeout (g : Gallery) : Gallery := on_page (set_spinner false) g.

Definition activity (active : bool) : string := if active then "Active" else "Inactive".

(** The [change] listener of the banner checkbox; it is attached only
    where the element exists, and [isChecked] is the state the element is
    in when the event is raised. *)
Definition handleCheckboxChange (clock : Clock) (isChecked : bool) (g : Gallery) : Gallery :=
  match bannerCheckbox g with
  | Some _ =>
      {| page :=
           updateComponentStatus clock "banner" (activity isChecked)
             (set_showBanner isChecked (page g));
         bannerCheckbox := Some isChecked;
         toastCheckbox := toastCheckbox g; timers := timers g |}
  | None => g
  end.

(** The [dismiss] listener of the banner; the banner is in the document
    only while [showBanner] holds. *)
Definition handleBannerDismiss (clock : Clock) (g : Gallery) : Gallery :=
  if showBanner (page g) then
    {| page := updateComponentStatus clock "banner" "Inactive" (set_showBanner false (page g));
       bannerCheckbox :=
         match bannerCheckbox g with
         | Some _ => Some false
         | None => None
         end;
       toastCheckbox := toastCheckbox g; timers := timers g |}
  else g.

(** The [change] listener of the toast checkbox. *)
Definition handleToastCheckboxChange (clock : Clock) (isChecked : bool) (g : Gallery)
  : Gallery :=
  match toastCheckbox g with
  | Some _ =>
      let p := updateComponentStatus clock "toast" (activity isChecked)
                 (set_toastChecked isChecked (page g)) in
      if isChecked then
        {| page :=
             toast_show {| message := "Action completed successfully!";
                           duration := 4000; tone := None |} p;
           bannerCheckbox := bannerCheckbox g;
           toastCheckbox := Some isChecked;
           timers := timers g ++ [toast_timer] |}
      else
        {| page := p; bannerCheckbox := bannerCheckbox g;
           toastCheckbox := Some isChecked; timers := timers g |}
  | None => g
  end.

(** The callback of the toast timer. *)
Definition toastTimeout (clock : Clock) (g : Gallery) : Gallery :=
  match toastCheckbox g with
  | Some _ =>
      {| page := updateComponentStatus clock "toast" "Inactive"
                   (set_toastChecked false (page g));
         bannerCheckbox := bannerCheckbox g;
         toastCheckbox := Some false; timers := timers g |}
  | None => g
  end.

(** [if (modal) modal.show()]: the element opens and its [show] listener
    marks the modal active. *)
Definition modal_show (clock : Clock) (p : Page) : Page :=
  match modal p with
  | Some _ => updateComponentStatus clock "modal" "Active" (set_modal true p)
  | None => p
  end.

(** What can happen to the mounted gallery. *)
Inductive Event : Type :=
  | ClickSpinner
  | Fire (n : nat)
  | ChangeBanner (isChecked : bool)
  | DismissBanner
  | ChangeToast (isChecked : bool)
  | ClickOpenModal
  | CloseModal
  | TypeName (text : string)
  | ClickSave
  | ClickCancel
  | ClickSort (key : string).

(** The [n]-th waiting timer fires: it leaves the queue and its callback
    runs. *)
Definition fire (clock : Clock) (n : nat) (g : Gallery) : Gallery :=
  match List.nth_error (timers g) n with
  | Some t =>
      let g' :=
        {| page := page g; bannerCheckbox := bannerCheckbox g;
           toastCheckbox := toastCheckbox g;
           timers := List.firstn n (timers g) ++ List.skipn (S n) (timers g) |} in
      match t with
      | spinner_timer => spinnerTimeout g'
      | toast_timer => toastTimeout clock g'
      end
  | None => g
  end.

Definition step (clock : Clock) (event : Event) (g : Gallery) : Gallery :=
  match event with
  | ClickSpinner => handleSpinnerClick g
  | Fire n => fire clock n g
  | ChangeBanner isChecked => handleCheckboxChange clock isChecked g
  | DismissBanner => handleBannerDismiss clock g
  | ChangeToast isChecked => handleToastCheckboxChange clock isChecked g
  | ClickOpenModal => on_page (modal_show clock) g
  | CloseModal => on_page (modal_hide clock) g
  | TypeName text => on_page (handleNameChange text) g
  | ClickSave => on_page (handleSave clock) g
  | ClickCancel => on_page (handleCancel clock) g
  | ClickSort key => on_page (handleSort key) g
  end.

Definition run (events : list (Clock * Event)) (g : Gallery) : Gallery :=
  List.fold_left (fun g ce => step (fst ce) (snd ce) g) events g.

End GalleryEvents.

Module GalleryExtras.

Import WebComponents GalleryEvents GalleryFacts.

(** The status log: the array [componentStatusData] names. *)
Definition log (p : Page) : list StatusEntry.t := read (heap p) (componentStatusData p).

(** What [updateComponentStatus] makes of one entry. *)
Definition retag (clock : Clock) (id status : string) (item : StatusEntry.t)
  : StatusEntry.t :=
  if String.eqb (StatusEntry.id item) id
  then {| StatusEntry.id := StatusEntry.id item;
          StatusEntry.name := StatusEntry.name item;
          StatusEntry.status := status;
          StatusEntry.time := localeTime clock |}
  else item.

(** The entry [addSubmittedNameToComponentStatus] appends. *)
Definition submitted_entry (clock : Clock) (name time : string) : StatusEntry.t :=
  {| StatusEntry.id := "submitted-" ++ NilZero.string_of_int (Z.to_int (now clock));
     StatusEntry.name := "Submitted Name: " ++ name;
     StatusEntry.status := "Submitted";
     StatusEntry.time := time |}.

Lemma read_fresh (h : Heap) entries :
  read (<[fresh (dom h) := entries]> h) (fresh (dom h)) = entries.
Proof. unfold read. rewrite lookup_insert_eq. reflexivity. Qed.

Lemma read_kept (h : Heap) entries l :
  is_Some (h !! l) -> read (<[fresh (dom h) := entries]> h) l = read h l.
Proof.
  intros Hl. unfold read. rewrite lookup_insert_ne; [ reflexivity | ].
  intros <-. apply (is_fresh (dom h)), elem_of_dom, Hl.
Qed.

Lemma log_update clock id status p :
  log (updateComponentStatus clock id status p) = List.map (retag clock id status) (log p).
Proof. unfold log. cbn. apply read_fresh. Qed.

Lemma log_add clock name time p :
  log (addSubmittedNameToComponentStatus clock name time p) =
    (log p ++ [submitted_entry clock name time])%list.
Proof. unfold log. cbn. apply read_fresh. Qed.

(** *** [trim] *)

Lemma trimEnd_cons c s :
  trimEnd (String c s) =
    match trimEnd s with
    | EmptyString => if is_space c then EmptyString else String c EmptyString
    | kept => String c kept
    end.
Proof. reflexivity. Qed.

Lemma trimEnd_idem s : trimEnd (trimEnd s) = trimEnd s.
Proof.
  induction s as [|c s IH]; [ reflexivity | ].
  rewrite trimEnd_cons. destruct (trimEnd s) as [|k kept] eqn:Hk.
  - destruct (is_space c) eqn:Hc; [ reflexivity | ].
    rewrite trimEnd_cons. simpl. rewrite Hc. reflexivity.
  - rewrite trimEnd_cons, IH. reflexivity.
Qed.

Lemma trimStart_trimEnd s :
  trimStart s = s -> trimStart (trimEnd s) = trimEnd s.
Proof.
  destruct s as [|c s]; [ reflexivity | ].
  cbn [trimStart]. destruct (is_space c) eqn:Hc.
  - intros H. exfalso.
    assert (Hlen : (String.length (trimStart s) <= String.length s)%nat).
    { clear. induction s as [|d s IH]; simpl; [ lia | ].
      destruct (is_space d); simpl; lia. }
    rewrite H in Hlen. simpl in Hlen. lia.
  - intros _. rewrite trimEnd_cons.
    destruct (trimEnd s); rewrite ?Hc; cbn [trimStart]; rewrite Hc; reflexivity.
Qed.

Lemma trimStart_idem s : trimStart (trimStart s) = trimStart s.
Proof.
  induction s as [|c s IH]; [ reflexivity | ].
  cbn [trimStart]. destruct (is_space c) eqn:Hc; [ exact IH | ].
  cbn [trimStart]. rewrite Hc. reflexivity.
Qed.

Lemma trim_idem s : trim (trim s) = trim s.
Proof.
  unfold trim. rewrite (trimStart_trimEnd (trimStart s) (trimStart_idem s)).
  apply trimEnd_idem.
Qed.

Lemma trim_kept s : blank s = false -> trim (trim s) = trim s /\ trim s <> "".
Proof.
  intros Hb. split; [ apply trim_idem | ].
  intros He. apply trim_empty in He. congruence.
Qed.

(** *** What holds of every gallery the events can lead to *)

Definition seed_row (id name : string) (active : bool) (e : StatusEntry.t) : Prop :=
  StatusEntry.id e = id /\
  StatusEntry.name e = name /\
  StatusEntry.status e = activity active.

Definition submitted_row (n : SubmittedName.t) (e : StatusEntry.t) : Prop :=
  (exists digits, StatusEntry.id e = "submitted-" ++ digits) /\
  StatusEntry.name e = "Submitted Name: " ++ SubmittedName.name n /\
  StatusEntry.status e = "Submitted" /\
  StatusEntry.time e = SubmittedName.time n.

(** The log is the three seed rows, with the activity given, followed by
    one row per submitted name. *)
Definition rows_ok (banner toast modal_on : bool) (names : list SubmittedName.t)
    (l : list StatusEntry.t) : Prop :=
  exists b t m tail,
    l = b :: t :: m :: tail /\
    seed_row "banner" "Banner Notification" banner b /\
    seed_row "toast" "Toast Notification" toast t /\
    seed_row "modal" "Name Form Modal" modal_on m /\
    Forall2 submitted_row names tail.

Definition modal_open (p : Page) : bool :=
  match modal p with
  | Some true => true
  | _ => false
  end.

(** A checkbox element, where there is one, shows the flag. *)
Definition box_agrees (box : option bool) (flag : bool) : Prop :=
  match box with
  | Some checked => checked = flag
  | None => flag = false
  end.

(** A name as [handleSave] keeps it: trimmed, and not empty. *)
Definition kept_name (n : SubmittedName.t) : Prop :=
  trim (SubmittedName.name n) = SubmittedName.name n /\ SubmittedName.name n <> "".

Definition consistent (g : Gallery) : Prop :=
  rows_ok (showBanner (page g)) (toastChecked (page g)) (modal_open (page g))
    (submittedNames (page g)) (log (page g)) /\
  Forall kept_name (submittedNames (page g)) /\
  box_agrees (bannerCheckbox g) (showBanner (page g)) /\
  box_agrees (toastCheckbox g) (toastChecked (page g)) /\
  showSpinner (page g) = buttonLoading (page g) /\
  (showSpinner (page g) = true -> In spinner_timer (timers g)) /\
  (toastChecked (page g) = true -> In toast_timer (timers g)).

Definition widget (id : string) : Prop := id = "banner" \/ id = "toast" \/ id = "modal".

Lemma retag_submitted clock id status names tail :
  widget id ->
  Forall2 submitted_row names tail ->
  List.map (retag clock id status) tail = tail.
Proof.
  intros Hid. induction 1 as [|n e names tail [[digits Hd] _] _ IH]; [ reflexivity | ].
  cbn [List.map]. rewrite IH. f_equal.
  unfold retag. rewrite Hd.
  destruct Hid as [->|[->| ->]]; reflexivity.
Qed.

Lemma retag_same clock status id name active e :
  seed_row id name active e ->
  forall v, status = activity v -> seed_row id name v (retag clock id status e).
Proof.
  intros (Hi & Hn & Hs) v ->. unfold retag. rewrite Hi, String.eqb_refl.
  repeat split; assumption.
Qed.

Lemma retag_other clock status id id' name active e :
  seed_row id' name active e -> id' <> id -> retag clock id status e = e.
Proof.
  intros (Hi & _) Hne. unfold retag. rewrite Hi.
  destruct (String.eqb_spec id' id); [ contradiction | reflexivity ].
Qed.

Lemma rows_banner clock v banner toast modal_on names l :
  rows_ok banner toast modal_on names l ->
  rows_ok v toast modal_on names (List.map (retag clock "banner" (activity v)) l).
Proof.
  intros (b & t & m & tail & -> & Hb & Ht & Hm & Htail).
  exists (retag clock "banner" (activity v) b), t, m, tail. cbn [List.map].
  rewrite (retag_other _ _ _ _ _ _ _ Ht), (retag_other _ _ _ _ _ _ _ Hm) by discriminate.
  rewrite (retag_submitted _ _ _ names) by (unfold widget; auto).
  split; [ reflexivity | ].
  pose proof (retag_same clock _ _ _ _ _ Hb v eq_refl).
  split; [ assumption | ]. split; [ assumption | ]. split; assumption.
Qed.

Lemma rows_toast clock v banner toast modal_on names l :
  rows_ok banner toast modal_on names l ->
  rows_ok banner v modal_on names (List.map (retag clock "toast" (activity v)) l).
Proof.
  intros (b & t & m & tail & -> & Hb & Ht & Hm & Htail).
  exists b, (retag clock "toast" (activity v) t), m, tail. cbn [List.map].
  rewrite (retag_other _ _ _ _ _ _ _ Hb), (retag_other _ _ _ _ _ _ _ Hm) by discriminate.
  rewrite (retag_submitted _ _ _ names) by (unfold widget; auto).
  split; [ reflexivity | ].
  pose proof (retag_same clock _ _ _ _ _ Ht v eq_refl).
  split; [ assumption | ]. split; [ assumption | ]. split; assumption.
Qed.

Lemma rows_modal clock v banner toast modal_on names l :
  rows_ok banner toast modal_on names l ->
  rows_ok banner toast v names (List.map (retag clock "modal" (activity v)) l).
Proof.
  intros (b & t & m & tail & -> & Hb & Ht & Hm & Htail).
  exists b, t, (retag clock "modal" (activity v) m), tail. cbn [List.map].
  rewrite (retag_other _ _ _ _ _ _ _ Hb), (retag_other _ _ _ _ _ _ _ Ht) by discriminate.
  rewrite (retag_submitted _ _ _ names) by (unfold widget; auto).
  split; [ reflexivity | ].
  pose proof (retag_same clock _ _ _ _ _ Hm v eq_refl).
  split; [ assumption | ]. split; [ assumption | ]. split; assumption.
Qed.

Lemma rows_add clock name time banner toast modal_on names l :
  rows_ok banner toast modal_on names l ->
  rows_ok banner toast modal_on
    (names ++ [{| SubmittedName.name := name; SubmittedName.time := time |}])
    (l ++ [submitted_entry clock name time]).
Proof.
  intros (b & t & m & tail & -> & Hb & Ht & Hm & Htail).
  exists b, t, m, (tail ++ [submitted_entry clock name time])%list.
  split; [ reflexivity | ].
  split; [ assumption | ]. split; [ assumption | ]. split; [ assumption | ].
  apply Forall2_app; [ exact Htail | ].
  constructor; [ | constructor ].
  repeat split. eexists. reflexivity.
Qed.

Lemma in_without_nth {A} (l : list A) n x y :
  List.nth_error l n = Some y -> x <> y -> In x l ->
  In x (List.firstn n l ++ List.skipn (S n) l).
Proof.
  revert n. induction l as [|a l IH]; intros [|n]; simpl; try discriminate.
  - intros [= ->] Hne [Ha|Hin]; [ congruence | exact Hin ].
  - intros Hn Hne [Ha|Hin]; [ left; exact Ha | right; apply IH; assumption ].
Qed.

Lemma consistent_mounted clock modal_present toast_present banner_box toast_box :
  consistent (mounted clock modal_present toast_present banner_box toast_box).
Proof.
  unfold consistent, mounted, log.
  destruct modal_present; cbn; rewrite read_fresh.
  all: split; [ do 4 eexists; split; [ reflexivity | ]; repeat split; constructor | ].
  all: split; [ constructor | ].
  all: split; [ destruct banner_box; reflexivity | ].
  all: split; [ destruct toast_box; reflexivity | ].
  all: split; [ reflexivity | ]; split; discriminate.
Qed.

Ltac open_consistent H :=
  let Hrows := fresh "Hrows" in
  let Hnames := fresh "Hnames" in
  let Hbb := fresh "Hbb" in
  let Htb := fresh "Htb" in
  let Hsp := fresh "Hsp" in
  let Hspend := fresh "Hspend" in
  let Htpend := fresh "Htpend" in
  destruct H as (Hrows & Hnames & Hbb & Htb & Hsp & Hspend & Htpend);
  unfold log in *.

Ltac rebuild := unfold consistent, log; cbn; rewrite ?read_fresh.

Ltac conjuncts :=
  repeat match goal with
    | |- _ /\ _ => split
    end.

Ltac routine :=
  try assumption; try reflexivity; try discriminate;
  try (intros; apply in_or_app; auto; right; left; reflexivity).

Lemma consistent_step clock event g : consistent g -> consistent (step clock event g).
Proof.
  intros H. destruct g as [p bb tb ts]. open_consistent H. cbn in *.
  destruct event; cbn.
  - (* the spinner button *)
    unfold handleSpinnerClick. rebuild. conjuncts; routine.
  - (* a timer fires *)
    unfold fire. cbn. destruct (List.nth_error ts n) as [[|]|] eqn:Hn.
    + unfold spinnerTimeout. rebuild. conjuncts; routine.
      intros Ht. apply (in_without_nth ts n _ _ Hn); [ discriminate | auto ].
    + unfold toastTimeout. cbn. destruct tb as [c|].
      * rebuild. conjuncts; routine.
        -- exact (rows_toast clock false _ _ _ _ _ Hrows).
        -- intros Hs. apply (in_without_nth ts n _ _ Hn); [ discriminate | auto ].
      * cbn in Htb. rebuild. conjuncts; routine.
        -- intros Hs. apply (in_without_nth ts n _ _ Hn); [ discriminate | auto ].
        -- congruence.
    + rebuild. conjuncts; routine.
  - (* the banner checkbox *)
    unfold handleCheckboxChange. cbn. destruct bb as [c|].
    + rebuild. conjuncts; routine. exact (rows_banner clock isChecked _ _ _ _ _ Hrows).
    + rebuild. conjuncts; routine.
  - (* the banner is dismissed *)
    unfold handleBannerDismiss. cbn. destruct (showBanner p) eqn:Hshown.
    + rebuild. conjuncts; routine.
      * exact (rows_banner clock false _ _ _ _ _ Hrows).
      * destruct bb; [ reflexivity | discriminate ].
    + rebuild. rewrite Hshown. conjuncts; routine.
  - (* the toast checkbox *)
    unfold handleToastCheckboxChange. cbn. destruct tb as [c|].
    + destruct isChecked.
      * unfold toast_show. cbn. destruct (toast_api p); rebuild; conjuncts; routine;
          exact (rows_toast clock true _ _ _ _ _ Hrows).
      * rebuild. conjuncts; routine. exact (rows_toast clock false _ _ _ _ _ Hrows).
    + rebuild. conjuncts; routine.
  - (* the modal is opened *)
    unfold on_page, modal_show. cbn. destruct (modal p) as [o|] eqn:Hmodal.
    + rebuild. unfold modal_open in *. cbn. rewrite Hmodal in Hrows.
      conjuncts; routine. exact (rows_modal clock true _ _ _ _ _ Hrows).
    + rebuild. conjuncts; routine.
  - (* the modal is closed *)
    unfold on_page, modal_hide. cbn. destruct (modal p) as [o|] eqn:Hmodal.
    + rebuild. unfold modal_open in *. cbn. rewrite Hmodal in Hrows.
      conjuncts; routine. exact (rows_modal clock false _ _ _ _ _ Hrows).
    + rebuild. conjuncts; routine.
  - (* typing a name *)
    unfold on_page, handleNameChange. rebuild. conjuncts; routine.
  - (* save *)
    unfold on_page, handleSave. cbn. rewrite save_test.
    destruct (blank (nameInputValue p)) eqn:Hblank; cbn.
    + unfold toast_show. destruct (toast_api p); rebuild; conjuncts; routine.
    + destruct (trim_kept _ Hblank) as [Hidem Hne].
      unfold modal_hide. cbn. destruct (modal p) as [o|] eqn:Hmodal.
      * rebuild. unfold modal_open in *. cbn. rewrite Hmodal in Hrows.
        conjuncts; routine.
        -- exact (rows_modal clock false _ _ _ _ _ (rows_add clock _ _ _ _ _ _ _ Hrows)).
        -- apply Forall_app. split; [ assumption | ].
           constructor; [ split; assumption | constructor ].
      * rebuild. unfold modal_open in *. cbn. rewrite Hmodal in *.
        conjuncts; routine.
        -- exact (rows_add clock _ _ _ _ _ _ _ Hrows).
        -- apply Forall_app. split; [ assumption | ].
           constructor; [ split; assumption | constructor ].
  - (* cancel *)
    unfold on_page, handleCancel, modal_hide. cbn. destruct (modal p) as [o|] eqn:Hmodal.
    + rebuild. unfold modal_open in *. cbn. rewrite Hmodal in Hrows.
      conjuncts; routine. exact (rows_modal clock false _ _ _ _ _ Hrows).
    + rebuild. unfold modal_open in *. cbn. rewrite Hmodal in *. conjuncts; routine.
  - (* sorting *)
    unfold on_page, handleSort. rebuild. conjuncts; routine.
Qed.

Lemma consistent_run events g : consistent g -> consistent (run events g).
Proof.
  revert g. induction events as [|[clock event] events IH]; intros g H; [ exact H | ].
  apply IH, consistent_step, H.
Qed.

(** X14. In every gallery the events can lead to, the status log starts
    with the rows of the banner, the toast and the modal, in this order
    and under their names, and each of these rows says "Active" exactly
    while its component is on: the banner shown, the toast box checked,
    the modal open.  The two checkbox elements, where they exist, show the
    same flags. *)
Theorem status_rows_follow_components events clock modal_present toast_present
    banner_box toast_box :
  let g := run events (mounted clock modal_present toast_present banner_box toast_box) in
  (exists b t m tail,
      log (page g) = b :: t :: m :: tail /\
      (StatusEntry.id b, StatusEntry.name b, StatusEntry.status b) =
        ("banner", "Banner Notification",
         if showBanner (page g) then "Active" else "Inactive") /\
      (StatusEntry.id t, StatusEntry.name t, StatusEntry.status t) =
        ("toast", "Toast Notification",
         if toastChecked (page g) then "Active" else "Inactive") /\
      (StatusEntry.id m, StatusEntry.name m, StatusEntry.status m) =
        ("modal", "Name Form Modal",
         if modal_open (page g) then "Active" else "Inactive")) /\
  box_agrees (bannerCheckbox g) (showBanner (page g)) /\
  box_agrees (toastCheckbox g) (toastChecked (page g)).
Proof.
  intros g.
  destruct (consistent_run events _
              (consistent_mounted clock modal_present toast_present banner_box toast_box))
    as ((b & t & m & tail & Hlog & Hb & Ht & Hm & _) & _ & Hbb & Htb & _).
  fold g in Hlog, Hb, Ht, Hm, Hbb, Htb.
  split; [ | split; assumption ].
  exists b, t, m, tail. split; [ exact Hlog | ].
  destruct Hb as (-> & -> & ->), Ht as (-> & -> & ->), Hm as (-> & -> & ->).
  repeat split.
Qed.

(** X15. In every gallery the events can lead to, the status log has,
    after its three seed rows, exactly one row per submitted name, in the
    order of submission: its id starts with "submitted-", its name is
    "Submitted Name: " followed by the name, its status is "Submitted" and
    its time is the time of the submission.  Every submitted name is
    trimmed and not empty. *)
Theorem status_log_mirrors_names events clock modal_present toast_present
    banner_box toast_box :
  let g := run events (mounted clock modal_present toast_present banner_box toast_box) in
  length (log (page g)) = (3 + length (submittedNames (page g)))%nat /\
  Forall2 submitted_row (submittedNames (page g)) (List.skipn 3 (log (page g))) /\
  Forall kept_name (submittedNames (page g)).
Proof.
  intros g.
  destruct (consistent_run events _
              (consistent_mounted clock modal_present toast_present banner_box toast_box))
    as ((b & t & m & tail & Hlog & _ & _ & _ & Htail) & Hnames & _).
  fold g in Hlog, Htail, Hnames. rewrite Hlog. cbn [List.skipn length].
  split; [ | split; assumption ].
  rewrite (Forall2_length _ _ _ Htail). reflexivity.
Qed.

(** X16. In every gallery the events can lead to, the spinner and the
    loading flag of its button are on or off together, a spinner that is
    on has a timer waiting to turn it off, and a toast box that is checked
    has a timer waiting to uncheck it. *)
Theorem timers_back_controls events clock modal_present toast_present
    banner_box toast_box :
  let g := run events (mounted clock modal_present toast_present banner_box toast_box) in
  showSpinner (page g) = buttonLoading (page g) /\
  (showSpinner (page g) = true -> In spinner_timer (timers g)) /\
  (toastChecked (page g) = true -> In toast_timer (timers g)).
Proof.
  intros g.
  destruct (consistent_run events _
              (consistent_mounted clock modal_present toast_present banner_box toast_box))
    as (_ & _ & _ & _ & Hflags & Hspinner & Htoast).
  split; [ exact Hflags | ]. split; assumption.
Qed.

Lemma timers_back_controls_witness :
  let g :=
    run [({| localeTime := "9:00:05 AM"; now := 1700000005000 |}, ClickSpinner);
         ({| localeTime := "9:00:06 AM"; now := 1700000006000 |}, ChangeToast true)]
      (mounted {| localeTime := "9:00:00 AM"; now := 1700000000000 |}
         true true true true) in
  In spinner_timer (timers g) /\ In toast_timer (timers g).
Proof.
  intros g.
  destruct (timers_back_controls
              [({| localeTime := "9:00:05 AM"; now := 1700000005000 |}, ClickSpinner);
               ({| localeTime := "9:00:06 AM"; now := 1700000006000 |}, ChangeToast true)]
              {| localeTime := "9:00:00 AM"; now := 1700000000000 |} true true true true)
    as (_ & Hspinner & Htoast).
  split; [ apply Hspinner | apply Htoast ]; reflexivity.
Defined.

(** *** What no interaction does *)

(** Every array of [h] is in [h'], with the same elements. *)
Definition grows (h h' : Heap) : Prop :=
  forall l, is_Some (h !! l) -> h' !! l = h !! l.

Lemma grows_refl h : grows h h.
Proof. intros l _. reflexivity. Qed.

Lemma grows_alloc (h : Heap) entries : grows h (<[fresh (dom h) := entries]> h).
Proof.
  intros l Hl. apply lookup_insert_ne. intros <-.
  apply (is_fresh (dom h)), elem_of_dom, Hl.
Qed.

Lemma grows_trans h1 h2 h3 : grows h1 h2 -> grows h2 h3 -> grows h1 h3.
Proof.
  intros H12 H23 l Hl. rewrite H23, H12; [ reflexivity | exact Hl | ].
  rewrite H12; exact Hl.
Qed.

Definition is_sort (event : Event) : bool :=
  match event with
  | ClickSort _ => true
  | _ => false
  end.

Definition is_save (event : Event) : bool :=
  match event with
  | ClickSave => true
  | _ => false
  end.

(** What one step keeps. *)
Definition keeps (event : Event) (g g' : Gallery) : Prop :=
  submittedNames (page g) `prefix_of` submittedNames (page g') /\
  toasts (page g) `prefix_of` toasts (page g') /\
  grows (heap (page g)) (heap (page g')) /\
  (is_sort event = false -> sortConfig (page g') = sortConfig (page g)) /\
  (is_save event = false ->
     submittedNames (page g') = submittedNames (page g) /\
     length (log (page g')) = length (log (page g))).

Ltac kept :=
  first
    [ reflexivity
    | discriminate
    | apply grows_refl
    | apply grows_alloc
    | solve [ eapply grows_trans; apply grows_alloc ]
    | solve [ eexists; reflexivity ]
    | solve [ intros _; reflexivity ]
    | solve [ intros _; split; [ reflexivity | rewrite ?length_map; reflexivity ] ] ].

Ltac frame := unfold keeps, log; cbn; rewrite ?read_fresh; conjuncts; kept.

Lemma step_keeps clock event g : keeps event g (step clock event g).
Proof.
  destruct g as [p bb tb ts]. destruct event; cbn.
  - unfold handleSpinnerClick. frame.
  - unfold fire. cbn. destruct (List.nth_error ts n) as [[|]|]; [ | | frame ].
    + unfold spinnerTimeout. frame.
    + unfold toastTimeout. cbn. destruct tb; frame.
  - unfold handleCheckboxChange. cbn. destruct bb; frame.
  - unfold handleBannerDismiss. cbn. destruct (showBanner p); frame.
  - unfold handleToastCheckboxChange. cbn. destruct tb; [ | frame ].
    destruct isChecked; [ | frame ].
    unfold toast_show. cbn. destruct (toast_api p); frame.
  - unfold on_page, modal_show. cbn. destruct (modal p); frame.
  - unfold on_page, modal_hide. cbn. destruct (modal p); frame.
  - unfold on_page, handleNameChange. frame.
  - unfold on_page, handleSave. cbn. rewrite save_test.
    destruct (blank (nameInputValue p)); cbn.
    + unfold toast_show. destruct (toast_api p); frame.
    + unfold modal_hide. cbn. destruct (modal p); frame.
  - unfold on_page, handleCancel, modal_hide. cbn. destruct (modal p); frame.
  - unfold on_page, handleSort. frame.
Qed.

Lemma run_cons clock event events g :
  run ((clock, event) :: events) g = run events (step clock event g).
Proof. reflexivity. Qed.

(** X17. What no sequence of interactions does.  A submitted name is
    never removed or changed, and a toast shown is never taken back: the
    earlier lists are prefixes of the later ones.  No array is written to
    once built: every array of the heap is still there with the same
    elements.  The sort setting changes only on a click on a header, and
    the submitted names and the length of the status log only on a click
    on Save. *)
Theorem interactions_keep events g :
  submittedNames (page g) `prefix_of` submittedNames (page (run events g)) /\
  toasts (page g) `prefix_of` toasts (page (run events g)) /\
  grows (heap (page g)) (heap (page (run events g))) /\
  (forallb (fun ce => negb (is_sort (snd ce))) events = true ->
     sortConfig (page (run events g)) = sortConfig (page g)) /\
  (forallb (fun ce => negb (is_save (snd ce))) events = true ->
     submittedNames (page (run events g)) = submittedNames (page g) /\
     length (log (page (run events g))) = length (log (page g))).
Proof.
  revert g. induction events as [|[clock event] events IH]; intros g.
  - repeat split; reflexivity.
  - rewrite run_cons.
    destruct (step_keeps clock event g) as (Hn & Ht & Hh & Hs & Hv).
    destruct (IH (step clock event g)) as (Hn' & Ht' & Hh' & Hs' & Hv').
    split; [ etransitivity; eassumption | ].
    split; [ etransitivity; eassumption | ].
    split; [ eapply grows_trans; eassumption | ].
    cbn [forallb snd]. split.
    + intros Hall. apply andb_true_iff in Hall. destruct Hall as [He Hall].
      rewrite (Hs' Hall). apply Hs. destruct (is_sort event); [ discriminate | reflexivity ].
    + intros Hall. apply andb_true_iff in Hall. destruct Hall as [He Hall].
      destruct (Hv' Hall) as [-> ->]. apply Hv.
      destruct (is_save event); [ discriminate | reflexivity ].
Qed.

Lemma interactions_keep_witness :
  let clock := {| localeTime := "9:10:00 AM"; now := 1700000600000 |} in
  sortConfig
    (page (run [(clock, TypeName "Grace"); (clock, ClickOpenModal); (clock, ClickSave)]
             (on_page (handleSort "time")
                (mounted clock true true true true)))) =
  {| SortConfig.key := Some "time"; SortConfig.direction := asc |}.
Proof.
  intros clock.
  apply (proj1 (proj2 (proj2 (proj2
           (interactions_keep
              [(clock, TypeName "Grace"); (clock, ClickOpenModal); (clock, ClickSave)]
              (on_page (handleSort "time") (mounted clock true true true true))))))).
  reflexivity.
Defined.

(** X18. Saving a name that is not blank: the trimmed name and the time
    are appended to the submitted names, a row for it is appended to the
    status log, the input is emptied and, where the modal exists, it is
    closed and its row set to "Inactive".  The sort setting and the toasts
    stay, and the array that was the status log before is not touched. *)
Theorem save_appends clock p :
  blank (nameInputValue p) = false ->
  let name := trim (nameInputValue p) in
  let row := submitted_entry clock name (localeTime clock) in
  submittedNames (handleSave clock p) =
    (submittedNames p ++
       [{| SubmittedName.name := name; SubmittedName.time := localeTime clock |}])%list /\
  nameInputValue (handleSave clock p) = "" /\
  log (handleSave clock p) =
    match modal p with
    | Some _ => List.map (retag clock "modal" "Inactive") (log p ++ [row])
    | None => (log p ++ [row])%list
    end /\
  List.last (log (handleSave clock p)) row = row /\
  modal (handleSave clock p) =
    match modal p with
    | Some _ => Some false
    | None => None
    end /\
  sortConfig (handleSave clock p) = sortConfig p /\
  toasts (handleSave clock p) = toasts p /\
  grows (heap p) (heap (handleSave clock p)).
Proof.
  intros Hblank name row.
  assert (Hlog : log (handleSave clock p) =
                 match modal p with
                 | Some _ => List.map (retag clock "modal" "Inactive") (log p ++ [row])
                 | None => (log p ++ [row])%list
                 end).
  { unfold handleSave. rewrite save_test, Hblank. cbn. unfold modal_hide. cbn.
    destruct (modal p); unfold log; cbn; rewrite ?read_fresh; reflexivity. }
  split; [ | split; [ | split; [ exact Hlog | split ] ] ].
  - unfold handleSave. rewrite save_test, Hblank. cbn. apply modal_hide_names.
  - unfold handleSave. rewrite save_test, Hblank. cbn. unfold modal_hide. cbn.
    destruct (modal p); reflexivity.
  - rewrite Hlog. destruct (modal p).
    + rewrite List.map_app. cbn [List.map]. rewrite List.last_last. reflexivity.
    + apply List.last_last.
  - unfold handleSave. rewrite save_test, Hblank. cbn. unfold modal_hide. cbn.
    destruct (modal p) eqn:Hmodal; cbn; rewrite ?Hmodal; conjuncts; kept.
Qed.

Lemma save_appends_witness :
  let clock := {| localeTime := "9:05:00 AM"; now := 1700000300000 |} in
  let p := handleNameChange " Ada " morning in
  submittedNames (handleSave clock p) =
    [{| SubmittedName.name := "Ada"; SubmittedName.time := "9:05:00 AM" |}] /\
  List.last (log (handleSave clock p)) (submitted_entry clock "Ada" "9:05:00 AM") =
    {| StatusEntry.id := "submitted-1700000300000";
       StatusEntry.name := "Submitted Name: Ada";
       StatusEntry.status := "Submitted";
       StatusEntry.time := "9:05:00 AM" |}.
Proof.
  intros clock p.
  destruct (save_appends clock p eq_refl) as (Hnames & _ & _ & Hlast & _).
  split; [ exact Hnames | exact Hlast ].
Defined.

(** X19. [updateComponentStatus] builds a new array and writes to none.
    The new log has the length, the ids and the names of the old one;
    entries with another id are as they were, and when no entry has the
    id the new log equals the old; entries with the id get the status and
    the time.  The old array stays in the heap unchanged, and updating a
    second time with the same arguments changes nothing more. *)
Theorem status_update_builds_new_array clock id status p :
  let p' := updateComponentStatus clock id status p in
  length (log p') = length (log p) /\
  List.map StatusEntry.id (log p') = List.map StatusEntry.id (log p) /\
  List.map StatusEntry.name (log p') = List.map StatusEntry.name (log p) /\
  (forall i item,
      log p !! i = Some item ->
      StatusEntry.id item <> id ->
      log p' !! i = Some item) /\
  (forall item,
      In item (log p') ->
      StatusEntry.id item = id ->
      StatusEntry.status item = status /\ StatusEntry.time item = localeTime clock) /\
  ((forall item, In item (log p) -> StatusEntry.id item <> id) -> log p' = log p) /\
  grows (heap p) (heap p') /\
  (is_Some (heap p !! componentStatusData p) ->
     componentStatusData p' <> componentStatusData p /\
     read (heap p') (componentStatusData p) = log p) /\
  log (updateComponentStatus clock id status p') = log p'.
Proof.
  intros p'. subst p'. rewrite !log_update.
  assert (Hid : forall item, StatusEntry.id (retag clock id status item) = StatusEntry.id item).
  { intros item. unfold retag. destruct (String.eqb _ id); reflexivity. }
  assert (Hname : forall item,
             StatusEntry.name (retag clock id status item) = StatusEntry.name item).
  { intros item. unfold retag. destruct (String.eqb _ id); reflexivity. }
  split; [ apply length_map | ].
  split; [ rewrite List.map_map; apply List.map_ext; exact Hid | ].
  split; [ rewrite List.map_map; apply List.map_ext; exact Hname | ].
  split; [ | split; [ | split; [ | split; [ | split ] ] ] ].
  - intros i item Hi Hne. rewrite list_lookup_fmap, Hi. simpl. f_equal.
    unfold retag. destruct (String.eqb_spec (StatusEntry.id item) id);
      [ contradiction | reflexivity ].
  - intros item Hin Hitem. apply List.in_map_iff in Hin.
    destruct Hin as (old & <- & _). rewrite Hid in Hitem.
    unfold retag. rewrite Hitem, String.eqb_refl. split; reflexivity.
  - intros Hnone. rewrite <- (List.map_id (log p)) at 2.
    apply List.map_ext_in. intros item Hin. unfold retag.
    destruct (String.eqb_spec (StatusEntry.id item) id) as [Heq|_];
      [ destruct (Hnone item Hin Heq) | reflexivity ].
  - unfold updateComponentStatus. cbn. apply grows_alloc.
  - intros Hsome. unfold updateComponentStatus. cbn. split.
    + intros Heq. apply (is_fresh (dom (heap p))). rewrite Heq.
      apply elem_of_dom, Hsome.
    + apply read_kept, Hsome.
  - rewrite List.map_map. apply List.map_ext. intros item. unfold retag at 1.
    rewrite Hid. unfold retag.
    destruct (String.eqb (StatusEntry.id item) id); reflexivity.
Qed.

Lemma status_update_builds_new_array_witness :
  let clock := {| localeTime := "9:20:00 AM"; now := 1700001200000 |} in
  log (updateComponentStatus clock "spinner" "Active" morning) = log morning.
Proof.
  intros clock.
  destruct (status_update_builds_new_array clock "spinner" "Active" morning)
    as (_ & _ & _ & _ & _ & Hnone & _).
  apply Hnone. intros item Hin. unfold log in Hin. vm_compute in Hin.
  destruct Hin as [<-|[<-|[<-|[]]]]; discriminate.
Defined.

(** *** Sorting: keys that are no column, and the two directions *)

Lemma sort_by_flat {A} (compareFn : A -> A -> Z) l :
  (forall a b, compareFn a b = 0) -> sort_by compareFn l = l.
Proof.
  intros Hflat. induction l as [|x l IH]; [ reflexivity | ].
  cbn [sort_by List.fold_right]. fold (sort_by compareFn l). rewrite IH.
  destruct l as [|y l]; [ reflexivity | ].
  cbn [insert_by]. rewrite Hflat. reflexivity.
Qed.

Lemma view_of_sorted p :
  view_of p =
    if key_set (sortConfig p)
    then sort_by (compareEntries (sortConfig p)) (log p)
    else log p.
Proof.
  unfold view_of, log.
  destruct (rendered_array_cases p) as [[Hkey ->]|[Hkey (copy & _ & ->)]];
    rewrite Hkey; [ reflexivity | ].
  unfold read. cbn. rewrite lookup_insert_eq. reflexivity.
Qed.

(** X20. Sorting by a key that is no column of the entries, the empty
    key included, leaves the table in the order of the status log. *)
Theorem sort_by_unknown_key key p :
  key <> "id" -> key <> "name" -> key <> "status" -> key <> "time" ->
  view_of (handleSort key p) = log p.
Proof.
  intros Hid Hname Hstatus Htime. rewrite view_of_sorted.
  change (log (handleSort key p)) with (log p).
  destruct (key_set (sortConfig (handleSort key p))); [ | reflexivity ].
  apply sort_by_flat. intros a b. unfold compareEntries, entry_get. cbn.
  apply String.eqb_neq in Hid, Hname, Hstatus, Htime.
  rewrite Hid, Hname, Hstatus, Htime. reflexivity.
Qed.

Lemma sort_by_unknown_key_witness :
  view_of (handleSort "updated" afternoon) = log afternoon.
Proof.
  apply (sort_by_unknown_key "updated" afternoon); discriminate.
Defined.

Lemma StronglySorted_snoc {A} (R : A -> A -> Prop) l x :
  StronglySorted R l -> Forall (fun y => R y x) l -> StronglySorted R (l ++ [x]).
Proof.
  induction 1 as [|y l Hsorted IH Hall]; intros Hx; simpl.
  - constructor; constructor.
  - inversion Hx as [|? ? Hyx Hrest]; subst.
    constructor; [ apply IH, Hrest | ].
    apply Forall_app. split; [ exact Hall | constructor; [ exact Hyx | constructor ] ].
Qed.

Lemma StronglySorted_rev {A} (R : A -> A -> Prop) l :
  StronglySorted R l -> StronglySorted (fun a b => R b a) (List.rev l).
Proof.
  induction 1 as [|x l Hsorted IH Hall]; simpl; [ constructor | ].
  apply StronglySorted_snoc; [ exact IH | ].
  apply Forall_forall. intros y Hy. rewrite Forall_forall in Hall.
  apply Hall. apply list_elem_of_In. apply list_elem_of_In, in_rev in Hy. exact Hy.
Qed.

(** Two sorted arrangements of the same elements are the same list, when
    no two different elements may stand either way round. *)
Lemma sorted_unique {A} (R : A -> A -> Prop) l1 l2 :
  (forall a b, In a l1 -> In b l1 -> R a b -> R b a -> a = b) ->
  Permutation l1 l2 ->
  StronglySorted R l1 -> StronglySorted R l2 -> l1 = l2.
Proof.
  revert l2. induction l1 as [|x l1 IH]; intros l2 Hanti Hperm H1 H2.
  - apply Permutation_nil in Hperm. congruence.
  - destruct l2 as [|y l2].
    { apply Permutation_sym, Permutation_nil in Hperm. discriminate. }
    inversion H1 as [|? ? Hs1 Hall1]; subst. inversion H2 as [|? ? Hs2 Hall2]; subst.
    assert (Hxy : x = y).
    { assert (Hx : In x (y :: l2)).
      { apply (Permutation_in x Hperm). left. reflexivity. }
      assert (Hy : In y (x :: l1)).
      { apply (Permutation_in y (Permutation_sym Hperm)). left. reflexivity. }
      destruct Hx as [Hx|Hx]; [ congruence | ].
      destruct Hy as [Hy|Hy]; [ congruence | ].
      rewrite Forall_forall in Hall1, Hall2.
      apply Hanti; [ left; reflexivity | right; exact Hy | | ].
      - apply Hall1, list_elem_of_In, Hy.
      - apply Hall2, list_elem_of_In, Hx. }
    subst y. f_equal. apply IH; try assumption.
    + intros a b Ha Hb. apply Hanti; right; assumption.
    + apply (Permutation_cons_inv Hperm).
Qed.

Lemma NoDup_map_inj {A B} (f : A -> B) l a b :
  NoDup (List.map f l) -> In a l -> In b l -> f a = f b -> a = b.
Proof.
  induction l as [|x l IH]; simpl; [ tauto | ].
  intros Hnd Ha Hb Hf. inversion Hnd as [|? ? Hnotin Hrest]; subst.
  destruct Ha as [->|Ha], Hb as [->|Hb]; try reflexivity.
  - exfalso. apply Hnotin. rewrite Hf. apply list_elem_of_In, in_map, Hb.
  - exfalso. apply Hnotin. rewrite <- Hf. apply list_elem_of_In, in_map, Ha.
  - apply IH; assumption.
Qed.

Definition sorting (k : string) (d : Direction) : SortConfig.t :=
  {| SortConfig.key := Some k; SortConfig.direction := d |}.

Lemma order_of_flip x y : order_of asc x y <= 0 -> order_of desc y x <= 0.
Proof.
  rewrite !order_of_compare, (String.compare_antisym x y).
  destruct (String.compare y x); simpl; lia.
Qed.

Lemma compare_flip k a b :
  compareEntries (sorting k asc) a b <= 0 -> compareEntries (sorting k desc) b a <= 0.
Proof.
  unfold compareEntries. cbn [SortConfig.key SortConfig.direction sorting].
  destruct (entry_get_cases k) as [Hnone|[column Hsome]].
  - rewrite !Hnone. simpl. lia.
  - rewrite !Hsome. cbn [js_lt]. apply order_of_flip.
Qed.

Lemma compare_tie k d a b :
  compareEntries (sorting k d) a b <= 0 ->
  compareEntries (sorting k d) b a <= 0 ->
  entry_get a k = entry_get b k.
Proof.
  unfold compareEntries. cbn [SortConfig.key SortConfig.direction sorting].
  destruct (entry_get_cases k) as [Hnone|[column Hsome]].
  - rewrite !Hnone. reflexivity.
  - rewrite !Hsome. cbn [js_lt].
    fold (order_of d (column a) (column b)). fold (order_of d (column b) (column a)).
    rewrite !order_of_compare, (String.compare_antisym (column b) (column a)).
    destruct (String.compare (column a) (column b)) eqn:Hc; destruct d; simpl; try lia.
    all: intros _ _; f_equal; apply String.compare_eq_iff, Hc.
Qed.

Lemma sort_desc_rev k l :
  NoDup (List.map (fun item => entry_get item k) l) ->
  sort_by (compareEntries (sorting k desc)) l =
    List.rev (sort_by (compareEntries (sorting k asc)) l).
Proof.
  intros Hdistinct.
  apply (sorted_unique (before (compareEntries (sorting k desc)))).
  - intros a b Ha Hb Hab Hba.
    apply (Permutation_in _ (sort_by_perm _ l)) in Ha, Hb.
    apply (NoDup_map_inj _ l a b Hdistinct Ha Hb).
    apply (compare_tie k desc); assumption.
  - rewrite sort_by_perm, <- Permutation_rev, sort_by_perm. reflexivity.
  - apply sort_by_sorted; [ apply compareEntries_total | apply compareEntries_trans ].
  - apply (StronglySorted_weaken
             (fun a b => before (compareEntries (sorting k asc)) b a)).
    + intros a b. apply compare_flip.
    + apply StronglySorted_rev, sort_by_sorted;
        [ apply compareEntries_total | apply compareEntries_trans ].
Qed.

(** X21. When no two entries of the status log share the value of a
    column, a second click on the header of that column shows the table of
    the first click reversed: sorted descending is sorted ascending, read
    backwards.  (With shared values it is not: the rows that tie keep the
    order of the log in both directions.) *)
Theorem second_click_reverses k p :
  k <> "" ->
  key_is (sortConfig p) k && is_asc (SortConfig.direction (sortConfig p)) = false ->
  NoDup (List.map (fun item => entry_get item k) (log p)) ->
  sortConfig (handleSort k p) = sorting k asc /\
  sortConfig (handleSort k (handleSort k p)) = sorting k desc /\
  view_of (handleSort k (handleSort k p)) = List.rev (view_of (handleSort k p)).
Proof.
  intros Hk Hfirst Hdistinct.
  assert (H1 : sortConfig (handleSort k p) = sorting k asc).
  { unfold handleSort. cbn. rewrite Hfirst. reflexivity. }
  assert (H2 : sortConfig (handleSort k (handleSort k p)) = sorting k desc).
  { unfold handleSort at 1. cbn [sortConfig]. rewrite H1.
    unfold key_is, sorting. cbn. rewrite String.eqb_refl. reflexivity. }
  split; [ exact H1 | ]. split; [ exact H2 | ].
  rewrite !view_of_sorted, H1, H2.
  change (log (handleSort k (handleSort k p))) with (log p).
  change (log (handleSort k p)) with (log p).
  assert (Hset : forall d, key_set (sorting k d) = true).
  { intros d. unfold key_set, sorting. cbn.
    destruct (String.eqb_spec k ""); [ contradiction | reflexivity ]. }
  rewrite !Hset. apply sort_desc_rev, Hdistinct.
Qed.

Lemma second_click_reverses_witness :
  view_of (handleSort "name" (handleSort "name" afternoon)) =
    List.rev (view_of (handleSort "name" afternoon)).
Proof.
  apply (second_click_reverses "name" afternoon).
  - discriminate.
  - reflexivity.
  - vm_compute. repeat constructor; rewrite ?list_elem_of_In; simpl;
      intuition discriminate.
Defined.

End GalleryExtras.
